(** * Verification of the Algolia update webhook
    (src/functions/algolia-update-webhook.ts)

    The handler receives a Kontent.ai webhook, and for every changed item
    decides which Algolia records must be saved again and which must be
    deleted.  The external services (Algolia index, Delivery API) are an
    interface [Collaborators] over an abstract world state; every call to
    them is recorded in a trace, so that statements about "which calls are
    made, and when" are statements about that trace.

    The handler is asynchronous: it starts one async function per
    notification and, inside it, one per item and per existing record, and
    joins them with [Promise.all].  Here the functions joined by a
    [Promise.all] run to completion one after the other, in array order.
    What a notification computes from the world it reads, and how many calls
    it makes, does not depend on that order. *)

From stdpp Require Import base option list strings gmap.

Open Scope string_scope.
Open Scope list_scope.
Open Scope nat_scope.

(** ** JavaScript containers *)

(** [new Map(entries)], [map.get(k)] and [map.values()]: a JS Map keeps the
    insertion position of a key and the value written last. *)
Module JsMap.
Section Defs.
Context {V : Type}.

Definition t := list (string * V).

Fixpoint set (k : string) (v : V) (m : t) : t :=
  match m with
  | [] => [(k, v)]
  | (k', v') :: m' =>
      if decide (k = k') then (k', v) :: m' else (k', v') :: set k v m'
  end.

Definition from_entries (entries : list (string * V)) : t :=
  foldl (λ m kv, set kv.1 kv.2 m) [] entries.

Fixpoint get (k : string) (m : t) : option V :=
  match m with
  | [] => None
  | (k', v) :: m' => if decide (k = k') then Some v else get k m'
  end.

Definition values (m : t) : list V := m.*2.
Definition keys (m : t) : list string := m.*1.
End Defs.
Arguments t : clear implicits.
End JsMap.

(** [[...new Set(xs)]]: first occurrences, in order. *)
Module JsSet.
Definition add (x : string) (s : list string) : list string :=
  if decide (x ∈ s) then s else s ++ [x].
Definition from_list (xs : list string) : list string :=
  foldl (λ s x, add x s) [] xs.
End JsSet.

(** [!v] on a [string | undefined]: undefined and the empty string are falsy. *)
Definition truthy (v : option string) : bool :=
  match v with
  | Some s => negb (bool_decide (s = ""))
  | None => false
  end.

(** ** Data model *)

(** [IContentItem] of the Delivery SDK, restricted to what the handler and
    the projection read. *)
Record ContentItemSystem := {
  sys_codename : string;
  sys_language : string;
  sys_type : string;
}.

Record IContentItem := {
  system : ContentItemSystem;
  elements : gmap string string;
}.

(** Modelled from the spec: the [AlgoliaItem] type is declared in
    utils/algoliaItem, which is missing; section 3 (IndexRecord) gives it an
    object identifier, a codename, a language and projected content.  The
    handler reads [objectID], [codename] and [language], and filters the
    index on the codenames of the content blocks. *)
Record AlgoliaItem := {
  objectID : string;
  codename : string;
  language : string;
  content : list string;
}.

(** [response.data] of a Delivery item query: the item and the values of
    [linkedItems] in property order. *)
Record DeliveryResponse := {
  resp_item : IContentItem;
  resp_linkedItems : list IContentItem;
}.

Record DeliveryClient := { projectId : string }.

Record SearchIndex := {
  idx_appId : string;
  idx_apiKey : string;
  idx_name : string;
}.

(** [IWebhookDeliveryResponse]: [data.items] and [message.project_id]. *)
Record WebhookItem := {
  item_codename : string;
  item_language : string;
}.

Record IWebhookDeliveryResponse := {
  data_items : list WebhookItem;
  message_project_id : string;
}.

(** The parsed body: the new envelope has [notifications], the legacy one is
    a single notification. *)
Inductive WebhookData :=
| NewFormat (notifications : list IWebhookDeliveryResponse)
| LegacyFormat (self : IWebhookDeliveryResponse).

Inductive JsValue :=
| JsUndefined
| JsNull
| JsBoolean (b : bool)
| JsNumber (n : Z)
| JsString (s : string).

Record HandlerEvent := {
  httpMethod : string;
  body : option string;
  headers : gmap string string;
  queryStringParameters : option (gmap string JsValue);
}.

Inductive ResponseBody :=
| BodyText (s : string)
| BodyJson (deletedObjectIds reIndexedObjectIds : list string)
| BodyUncaught.

Record Response := {
  statusCode : nat;
  responseBody : ResponseBody;
  contentType : option string;
}.

(** [createEnvVars(["KONTENT_SECRET", "ALGOLIA_API_KEY"])], evaluated once at
    module load. *)
Record EnvVars := {
  KONTENT_SECRET : option string;
  ALGOLIA_API_KEY : option string;
  missingEnvVars : list string;
}.

(** ** External calls *)

Inductive Call :=
| CallSearch (index : SearchIndex) (itemCodename languageCodename : string)
    (result : option (list AlgoliaItem))
| CallFetch (client : DeliveryClient) (codename languageCodename : string)
    (result : option DeliveryResponse)
| CallSave (index : SearchIndex) (records : list AlgoliaItem)
| CallDelete (index : SearchIndex) (objectIds : list string).

Abbreviation Trace := (list Call).

(** The services the handler talks to.  [None] is a rejected promise.  Reads
    depend on the world state and leave it alone; writes change it. *)
Class Collaborators (St : Type) := {
  index_search : St → SearchIndex → string → string → option (list AlgoliaItem);
  deliver_item : St → DeliveryClient → string → string → option DeliveryResponse;
  index_saveObjects : St → SearchIndex → list AlgoliaItem → St * option (list string);
  index_deleteObjects : St → SearchIndex → list string → St * option (list string);
}.

(** The two helpers of utils/algoliaItem, which is missing: the handler is
    verified for every implementation of them. *)
Class Projection := {
  canConvertToAlgoliaItem : string → IContentItem → bool;
  convertToAlgoliaItem : JsMap.t IContentItem → string → IContentItem → AlgoliaItem;
}.

(** Pure library functions used before any work is done. *)
Class Platform := {
  JSON_parse : string → option WebhookData;
  isValidSignatureFromString : string → string → option string → bool;
}.

(** ** Effects *)

(** An awaited read: its value and the calls it made.  [Promise.all] over
    reads runs them in array order. *)
Definition Task (A : Type) : Type := A * Trace.

Global Instance Task_ret : MRet Task := λ A a, (a, []).
Global Instance Task_bind : MBind Task := λ A B f m,
  let '(b, t2) := f m.1 in (b, m.2 ++ t2).

Fixpoint Task_all {A} (ps : list (Task A)) : Task (list A) :=
  match ps with
  | [] => mret []
  | p :: ps' => a ← p; l ← Task_all ps'; mret (a :: l)
  end.

(** An async function that may write and may throw: final state, calls made,
    and the value ([None] when it rejects). *)
Definition Async (St A : Type) : Type := St → St * Trace * option A.

Global Instance Async_ret {St} : MRet (Async St) := λ A a st, (st, [], Some a).
Global Instance Async_bind {St} : MBind (Async St) := λ A B f m st,
  let '(st1, t1, r1) := m st in
  match r1 with
  | None => (st1, t1, None)
  | Some a => let '(st2, t2, r2) := f a st1 in (st2, t1 ++ t2, r2)
  end.

(** [Promise.all] over started async functions: every one of them runs to
    its end, whether or not another one rejects; the result rejects when one
    of them does. *)
Fixpoint Promise_all {St A} (ps : list (Async St A)) : Async St (list A) :=
  match ps with
  | [] => mret []
  | p :: ps' => λ st,
      let '(st1, t1, r1) := p st in
      let '(st2, t2, r2) := Promise_all ps' st1 in
      (st2, t1 ++ t2,
       match r1, r2 with Some a, Some l => Some (a :: l) | _, _ => None end)
  end.

Definition await_reads {St A} (read : St → Task A) : Async St A :=
  λ st, let '(a, t) := read st in (st, t, Some a).

Definition throw {St A} : Async St A := λ st, (st, [], None).

(** ** The handler *)

(** What one async callback of the handler decides: lines 120-123, 126-131,
    140-143 and 145-148 build these objects. *)
Record Action := {
  objectIdsToRemove : list string;
  recordsToReindex : list AlgoliaItem;
}.

(** The value of one notification's async function (lines 161-164); a field
    is [None] when the corresponding write was skipped. *)
Record WebhookResult := {
  deletedObjectIds : option (list string);
  reIndexedObjectIds : option (list string);
}.

(** shared/utils/typeguards: [hasStringProperty]. *)
Definition hasStringProperty (propName : string) (v : option (gmap string JsValue)) : bool :=
  match v with
  | None => false
  | Some o =>
      bool_decide (is_Some (o !! propName))
      && match o !! propName with Some (JsString _) => true | _ => false end
  end.

(** Lines 219-223. *)
Definition areValidQueryParams (v : option (gmap string JsValue)) : bool :=
  bool_decide (v ≠ None)
  && hasStringProperty "slug" v
  && hasStringProperty "appId" v
  && hasStringProperty "index" v.

(** [queryParams.slug] and the like, once the guard has passed. *)
Definition stringProperty (propName : string) (v : option (gmap string JsValue)) : string :=
  match v ≫= (.!! propName) with
  | Some (JsString s) => s
  | _ => ""
  end.

Section Handler.
Context {St : Type} `{!Collaborators St, !Projection, !Platform}.
Variable envVars : EnvVars.

(** Lines 182-192: a failed search is an empty list of hits. *)
Definition findAgoliaItems (st : St) (index : SearchIndex)
    (itemCodename languageCodename : string) : Task (list AlgoliaItem) :=
  let response := index_search st index itemCodename languageCodename in
  (default [] response,
   [CallSearch index itemCodename languageCodename response]).

(** Lines 207 and 209: the item and its linked items keyed by codename, or
    the empty map of the catch branch. *)
Definition itemsByCodename (response : option DeliveryResponse) : JsMap.t IContentItem :=
  match response with
  | Some r =>
      JsMap.from_entries
        ((λ i, (sys_codename (system i), i)) <$> (resp_item r :: resp_linkedItems r))
  | None => []
  end.

(** Lines 194-211: a failed fetch is an empty map. *)
Definition findDeliverItemWithChildrenByCodename (st : St)
    (deliverClient : DeliveryClient) (codename languageCodename : string)
    : Task (JsMap.t IContentItem) :=
  let response := deliver_item st deliverClient codename languageCodename in
  (itemsByCodename response,
   [CallFetch deliverClient codename languageCodename response]).

(** [deliverItem.system.type !== "article" && deliverItem.system.type !== "product"] *)
Definition notIndexableType (deliverItem : IContentItem) : bool :=
  bool_decide (sys_type (system deliverItem) ≠ "article")
  && bool_decide (sys_type (system deliverItem) ≠ "product").

(** Lines 135-149: the callback run for one existing record. *)
Definition existingCallback (st : St) (deliverClient : DeliveryClient)
    (slug : string) (i : AlgoliaItem) : Task Action :=
  deliverItems ← findDeliverItemWithChildrenByCodename st deliverClient (codename i) (language i);
  match JsMap.get (codename i) deliverItems with
  | None => mret {| objectIdsToRemove := [objectID i]; recordsToReindex := [] |}
  | Some deliverItem =>
      if notIndexableType deliverItem
      then mret {| objectIdsToRemove := [objectID i]; recordsToReindex := [] |}
      else mret {| objectIdsToRemove := [];
                   recordsToReindex := [convertToAlgoliaItem deliverItems slug deliverItem] |}
  end.

(** Lines 112-151: the callback run for one item of [data.items]. *)
Definition itemCallback (st : St) (index : SearchIndex)
    (deliverClient : DeliveryClient) (slug : string) (item : WebhookItem)
    : Task (list Action) :=
  existingAlgoliaItems ← findAgoliaItems st index (item_codename item) (item_language item);
  if bool_decide (length existingAlgoliaItems = 0) then
    deliverItems ← findDeliverItemWithChildrenByCodename st deliverClient
                     (item_codename item) (item_language item);
    match JsMap.get (item_codename item) deliverItems with
    | None => mret [ {| objectIdsToRemove := []; recordsToReindex := [] |} ]
    | Some deliverItem =>
        if notIndexableType deliverItem
        then mret [ {| objectIdsToRemove := []; recordsToReindex := [] |} ]
        else mret [ {| objectIdsToRemove := [];
                       recordsToReindex :=
                         if canConvertToAlgoliaItem slug deliverItem
                         then [convertToAlgoliaItem deliverItems slug deliverItem]
                         else [] |} ]
    end
  else Task_all (existingCallback st deliverClient slug <$> existingAlgoliaItems).

(** Lines 106-151: [actions]. *)
Definition webhookActions (st : St) (index : SearchIndex) (slug : string)
    (individialData : IWebhookDeliveryResponse) : Task (list Action) :=
  let deliverClient := {| projectId := message_project_id individialData |} in
  nested ← Task_all (itemCallback st index deliverClient slug <$> data_items individialData);
  mret (concat nested).

(** Lines 153-155. *)
Definition recordsToReIndex (actions : list Action) : list AlgoliaItem :=
  JsMap.values
    (JsMap.from_entries (actions ≫= λ a, (λ i, (codename i, i)) <$> recordsToReindex a)).

(** Line 156. *)
Definition mergedObjectIdsToRemove (actions : list Action) : list string :=
  JsSet.from_list (actions ≫= objectIdsToRemove).

Definition saveObjects (index : SearchIndex) (records : list AlgoliaItem)
    : Async St (list string) :=
  λ st, let '(st', r) := index_saveObjects st index records in
        (st', [CallSave index records], r).

Definition deleteObjects (index : SearchIndex) (objectIds : list string)
    : Async St (list string) :=
  λ st, let '(st', r) := index_deleteObjects st index objectIds in
        (st', [CallDelete index objectIds], r).

(** Lines 104-165: the async function mapped over [webhookDataArray]. *)
Definition processWebhook (index : SearchIndex) (slug : string)
    (individialData : IWebhookDeliveryResponse) : Async St WebhookResult :=
  actions ← await_reads (λ st, webhookActions st index slug individialData);
  let recordsToReIndex := recordsToReIndex actions in
  let objectIdsToRemove := mergedObjectIdsToRemove actions in
  reIndexResponse ←
    (if bool_decide (length recordsToReIndex = 0) then mret None
     else ids ← saveObjects index recordsToReIndex; mret (Some ids));
  deletedResponse ←
    (if bool_decide (length objectIdsToRemove = 0) then mret None
     else ids ← deleteObjects index objectIdsToRemove; mret (Some ids));
  mret {| deletedObjectIds := deletedResponse;
          reIndexedObjectIds := reIndexResponse |}.

(** Line 94. *)
Definition webhookDataArray (webhookData : WebhookData) : list IWebhookDeliveryResponse :=
  match webhookData with
  | NewFormat notifications => notifications
  | LegacyFormat self => [self]
  end.

(** Lines 101-179: what runs once the request has been accepted. *)
Definition reconcile (queryParams : option (gmap string JsValue))
    (webhookData : WebhookData) : Async St Response :=
  let index := {| idx_appId := stringProperty "appId" queryParams;
                  idx_apiKey := default "" (ALGOLIA_API_KEY envVars);
                  idx_name := stringProperty "index" queryParams |} in
  results ← Promise_all
    (processWebhook index (stringProperty "slug" queryParams) <$> webhookDataArray webhookData);
  mret {| statusCode := 200;
          responseBody :=
            BodyJson (results ≫= λ r, default [] (deletedObjectIds r))
                     (results ≫= λ r, default [] (reIndexedObjectIds r));
          contentType := Some "application/json" |}.

(** Lines 65-180: the function passed to [serializeUncaughtErrorsHandler]. *)
Definition handlerBody (event : HandlerEvent) : Async St Response :=
  if bool_decide (httpMethod event ≠ "POST") then
    mret {| statusCode := 405; responseBody := BodyText "Method Not Allowed";
            contentType := None |}
  else if negb (truthy (body event)) then
    mret {| statusCode := 400; responseBody := BodyText "Missing Data";
            contentType := None |}
  else if negb (truthy (KONTENT_SECRET envVars)) || negb (truthy (ALGOLIA_API_KEY envVars)) then
    mret {| statusCode := 500;
            responseBody :=
              BodyText (String.concat ", " (missingEnvVars envVars)
                        +:+ " environment variables are missing, please check the documentation");
            contentType := None |}
  else if negb (truthy (headers event !! "x-kc-signature"))
          || negb (isValidSignatureFromString (default "" (body event))
                     (default "" (KONTENT_SECRET envVars))
                     (headers event !! "x-kontent-ai-signature")) then
    mret {| statusCode := 401; responseBody := BodyText "Unauthorized";
            contentType := None |}
  else
    match JSON_parse (default "" (body event)) with
    | None => throw
    | Some webhookData =>
        let queryParams := queryStringParameters event in
        if negb (areValidQueryParams queryParams) then
          mret {| statusCode := 400;
                  responseBody :=
                    BodyText "Missing some query parameters, please check the documentation";
                  contentType := None |}
        else reconcile queryParams webhookData
    end.

(** Modelled from the spec: utils/serializeUncaughtErrorsHandler is
    missing; section 7 has an uncaught failure "caught at the boundary and
    converted into a well-formed error response". *)
Definition serializeUncaughtErrorsHandler (h : HandlerEvent → Async St Response)
    (event : HandlerEvent) (st : St) : St * Trace * Response :=
  let '(st', t, r) := h event st in
  (st', t,
   match r with
   | Some response => response
   | None => {| statusCode := 500; responseBody := BodyUncaught; contentType := None |}
   end).

Definition handler : HandlerEvent → St → St * Trace * Response :=
  serializeUncaughtErrorsHandler handlerBody.

End Handler.

(** ** Vocabulary of the statements *)

Definition is_read (c : Call) : bool :=
  match c with CallSearch _ _ _ _ | CallFetch _ _ _ _ => true | _ => false end.
Definition is_delete (c : Call) : bool :=
  match c with CallDelete _ _ => true | _ => false end.

Definition countCalls (kind : Call → bool) (tr : Trace) : nat :=
  length (filter (λ c, kind c = true) tr).


(** The save a notification makes for its merged records (line 158). *)
Definition saveCalls (index : SearchIndex) (records : list AlgoliaItem) : Trace :=
  match records with
  | [] => []
  | _ => [CallSave index records]
  end.

Definition traceOf {St A} (result : St * Trace * A) : Trace := result.1.2.

Definition removeAction (e : AlgoliaItem) : Action :=
  {| objectIdsToRemove := [objectID e]; recordsToReindex := [] |}.
Definition noAction : Action :=
  {| objectIdsToRemove := []; recordsToReindex := [] |}.

Definition producedRecords (actions : list Action) : list AlgoliaItem :=
  actions ≫= recordsToReindex.

(** The two merged collections of one notification (lines 153-156), under
    the names of section 3 of the specification. *)
Record MutationSet := {
  recordsToUpsert : list AlgoliaItem;
  removedObjectIds : list string;
}.

Section Views.
Context {St : Type} `{!Collaborators St, !Projection, !Platform}.
Implicit Types (st : St) (index : SearchIndex) (client : DeliveryClient)
  (slug : string) (item : WebhookItem) (p : IWebhookDeliveryResponse)
  (event : HandlerEvent).

(** What the handler sees of the index and of the content for one key. *)
Definition hitsOf st index item : list AlgoliaItem :=
  default [] (index_search st index (item_codename item) (item_language item)).

Definition graphOf st client (c l : string) : JsMap.t IContentItem :=
  itemsByCodename (deliver_item st client c l).

Definition clientOf p : DeliveryClient := {| projectId := message_project_id p |}.

Definition fetchCall st client (c l : string) : Call :=
  CallFetch client c l (deliver_item st client c l).

Definition searchCall st index item : Call :=
  CallSearch index (item_codename item) (item_language item)
    (index_search st index (item_codename item) (item_language item)).

Definition mutationSet st index slug p : MutationSet :=
  let actions := (webhookActions st index slug p).1 in
  {| recordsToUpsert := recordsToReIndex actions;
     removedObjectIds := mergedObjectIdsToRemove actions |}.

(** The index, the slug field and the notifications a request stands for. *)
Definition requestIndex (envVars : EnvVars) event : SearchIndex :=
  {| idx_appId := stringProperty "appId" (queryStringParameters event);
     idx_apiKey := default "" (ALGOLIA_API_KEY envVars);
     idx_name := stringProperty "index" (queryStringParameters event) |}.

Definition requestSlug event : string :=
  stringProperty "slug" (queryStringParameters event).

Definition notificationsOf event : list IWebhookDeliveryResponse :=
  match JSON_parse (default "" (body event)) with
  | Some webhookData => webhookDataArray webhookData
  | None => []
  end.

Definition runNotifications (envVars : EnvVars) event : Async St (list WebhookResult) :=
  Promise_all (processWebhook (requestIndex envVars event) (requestSlug event)
               <$> notificationsOf event).
End Views.

(** * A reference world

    Concrete collaborators on which the handler can be run: an index that is
    a list of records and a content store that is a list of Delivery
    responses.  They follow the contracts of sections 4.2, 4.3 and 6 of the
    specification: a search filters on a content-block codename and the
    language, saving replaces the record with the same object identifier or
    appends, deleting drops by object identifier, and either read can be made
    to fail for chosen codenames. *)
Module Reference.

Record World := {
  indexed : list AlgoliaItem;
  published : list DeliveryResponse;
  search_outage : list string;
  fetch_outage : list string;
}.

Fixpoint upsert (r : AlgoliaItem) (ix : list AlgoliaItem) : list AlgoliaItem :=
  match ix with
  | [] => [r]
  | r' :: ix' =>
      if decide (objectID r' = objectID r) then r :: ix' else r' :: upsert r ix'
  end.

Definition with_indexed (w : World) (ix : list AlgoliaItem) : World :=
  {| indexed := ix; published := published w;
     search_outage := search_outage w; fetch_outage := fetch_outage w |}.

Definition serves (c l : string) (resp : DeliveryResponse) : bool :=
  bool_decide (sys_codename (system (resp_item resp)) = c)
  && bool_decide (sys_language (system (resp_item resp)) = l).

#[export] Instance collaborators : Collaborators World := {|
  index_search w _ c l :=
    if decide (c ∈ search_outage w) then None
    else Some (filter (λ r, c ∈ content r ∧ language r = l) (indexed w));
  deliver_item w _ c l :=
    if decide (c ∈ fetch_outage w) then None
    else List.find (serves c l) (published w);
  index_saveObjects w _ records :=
    (with_indexed w (foldl (λ ix r, upsert r ix) (indexed w) records),
     Some (objectID <$> records));
  index_deleteObjects w _ objectIds :=
    (with_indexed w (filter (λ r, objectID r ∉ objectIds) (indexed w)),
     Some objectIds);
|}.

(** Modelled from the spec: utils/algoliaItem is missing.  Section 4.1 names
    "a required slug/path field missing" as the projection precondition, and
    section 3 makes the object identifier stable per (codename, language)
    and lets the record inline its linked entities. *)
#[export] Instance projection : Projection := {|
  canConvertToAlgoliaItem slug item := bool_decide (is_Some (elements item !! slug));
  convertToAlgoliaItem allItems slug item :=
    {| objectID := sys_codename (system item) +:+ "_" +:+ sys_language (system item);
       codename := sys_codename (system item);
       language := sys_language (system item);
       content := JsMap.keys allItems |};
|}.

(** A body is looked up in a table of known payloads; a signature is valid
    when it repeats the secret. *)
Definition platform (bodies : list (string * WebhookData)) : Platform := {|
  JSON_parse b := JsMap.get b bodies;
  isValidSignatureFromString _ secret signature := bool_decide (signature = Some secret);
|}.

Definition entity (c l ty : string) (els : list (string * string)) : IContentItem :=
  {| system := {| sys_codename := c; sys_language := l; sys_type := ty |};
     elements := list_to_map els |}.

Definition alone (i : IContentItem) : DeliveryResponse :=
  {| resp_item := i; resp_linkedItems := [] |}.

Definition changed (c l : string) : WebhookItem :=
  {| item_codename := c; item_language := l |}.

Definition notification (items : list WebhookItem) : IWebhookDeliveryResponse :=
  {| data_items := items; message_project_id := "project" |}.

Definition envVars : EnvVars :=
  {| KONTENT_SECRET := Some "secret"; ALGOLIA_API_KEY := Some "key";
     missingEnvVars := [] |}.

Definition request : HandlerEvent :=
  {| httpMethod := "POST";
     body := Some "payload";
     headers := list_to_map [("x-kc-signature", "secret");
                             ("x-kontent-ai-signature", "secret")];
     queryStringParameters :=
       Some (list_to_map [("slug", JsString "url"); ("appId", JsString "app");
                          ("index", JsString "idx")]) |}.

Definition index : SearchIndex :=
  {| idx_appId := "app"; idx_apiKey := "key"; idx_name := "idx" |}.

Definition client : DeliveryClient := {| projectId := "project" |}.

(** Run the handler on [request] when its body parses to [webhookData]. *)
Definition run (webhookData : WebhookData) (w : World) : World * Trace * Response :=
  @handler World _ _ (platform [("payload", webhookData)]) envVars request w.

Definition post1 := entity "post-1" "en" "article" [("url", "/post-1")].
Definition post2 := entity "post-2" "en" "article" [("url", "/post-2")].
Definition post3 := entity "post-3" "en" "product" [("url", "/post-3")].
Definition post1_without_slug := entity "post-1" "en" "article" [].
Definition page1 := entity "page-1" "en" "page" [("url", "/page-1")].

Definition record (objectId c l : string) : AlgoliaItem :=
  {| objectID := objectId; codename := c; language := l; content := [c] |}.

Definition world (ix : list AlgoliaItem) (content : list IContentItem) : World :=
  {| indexed := ix; published := alone <$> content;
     search_outage := []; fetch_outage := [] |}.

(** Inputs of the examples below. *)
Definition request_without_slug : HandlerEvent :=
  {| httpMethod := "POST";
     body := Some "payload";
     headers := headers request;
     queryStringParameters :=
       Some (list_to_map [("appId", JsString "app"); ("index", JsNumber 7)]) |}.

Definition post1_changed : IWebhookDeliveryResponse :=
  notification [changed "post-1" "en"].
Definition post2_changed : IWebhookDeliveryResponse :=
  notification [changed "post-2" "en"].
Definition three_changed : IWebhookDeliveryResponse :=
  notification [changed "post-1" "en"; changed "post-2" "en"; changed "post-3" "en"].
Definition two_changed : IWebhookDeliveryResponse :=
  notification [changed "post-1" "en"; changed "post-2" "en"].

Definition post1_record : AlgoliaItem := record "post-1_en" "post-1" "en".
Definition post2_record : AlgoliaItem := record "post-2_en" "post-2" "en".
Definition post3_record : AlgoliaItem := record "post-3_en" "post-3" "en".
Definition stale_post1 : AlgoliaItem := record "abc123" "post-1" "en".
Definition stale_post2 : AlgoliaItem := record "abc123" "post-2" "en".

(** Nothing indexed yet, post-1 and post-2 published. *)
Definition fresh : World := world [] [post1; post2].

(** Nothing indexed yet, post-1 published. *)
Definition unindexed : World := world [] [post1].

(** post-1 indexed and published. *)
Definition settled : World := world [post1_record] [post1].

(** post-2 still indexed under "abc123" but no longer published. *)
Definition post2_deleted : World := world [stale_post2] [].

(** post-1 indexed under "abc123"; its entity has lost the slug field. *)
Definition post1_lost_slug : World := world [stale_post1] [post1_without_slug].

(** post-1 and post-2 indexed, only post-1 still published. *)
Definition post2_unpublished : World := world [post1_record; post2_record] [post1].

(** Both services fail for post-2. *)
Definition post2_unreachable : World :=
  {| indexed := []; published := alone <$> [post1; post2; post3];
     search_outage := ["post-2"]; fetch_outage := ["post-2"] |}.

(** The handler on a notification of this world's project. *)
Definition mutations (w : World) (p : IWebhookDeliveryResponse) : MutationSet :=
  mutationSet w index "url" p.

End Reference.

(** ** Conditions named in the statements *)

(** A request without a body, and a request that lacks one of the three
    required query parameters as a string. *)
Definition bodyMissing (event : HandlerEvent) : Prop :=
  body event = None ∨ body event = Some "".

Definition parameterMissing (event : HandlerEvent) : Prop :=
  ∃ name, name ∈ ["slug"; "appId"; "index"]
          ∧ ∀ s, queryStringParameters event ≫= (.!! name) ≠ Some (JsString s).

Definition allowedType (d : IContentItem) : Prop :=
  sys_type (system d) = "article" ∨ sys_type (system d) = "product".




Definition emptyMutationSet : MutationSet :=
  {| recordsToUpsert := []; removedObjectIds := [] |}.

Section Conditions.
Context {St : Type} `{!Collaborators St, !Projection, !Platform}.
Implicit Types (st : St) (index : SearchIndex) (slug : string)
  (p : IWebhookDeliveryResponse).

(** The index writes never reject. *)
Definition writesSucceed : Prop :=
  (∀ st idx records, is_Some (index_saveObjects st idx records).2)
  ∧ (∀ st idx ids, is_Some (index_deleteObjects st idx ids).2).


(** The index agrees with the content for the items of a notification:
    every record found is the projection of its entity, which is there
    with an allowed type, and an item with no record has nothing to
    index. *)
Definition converged st index slug p : Prop :=
  ∀ item, item ∈ data_items p →
    (hitsOf st index item = [] →
     ∀ d, JsMap.get (item_codename item)
            (graphOf st (clientOf p) (item_codename item) (item_language item)) = Some d →
          notIndexableType d = true ∨ canConvertToAlgoliaItem slug d = false)
    ∧ ∀ e, e ∈ hitsOf st index item →
        ∃ d, JsMap.get (codename e)
               (graphOf st (clientOf p) (codename e) (language e)) = Some d
             ∧ notIndexableType d = false
             ∧ convertToAlgoliaItem
                 (graphOf st (clientOf p) (codename e) (language e)) slug d = e.

(** The record of a projected entity carries the entity's codename. *)
Definition projectionKeepsCodename : Prop :=
  ∀ allItems slug d,
    codename (convertToAlgoliaItem allItems slug d) = sys_codename (system d).
End Conditions.

(** ** Further vocabulary *)

Definition is_search (c : Call) : bool :=
  match c with CallSearch _ _ _ _ => true | _ => false end.
Definition is_fetch (c : Call) : bool :=
  match c with CallFetch _ _ _ _ => true | _ => false end.


(** The request with another value of one header. *)
Definition with_header (event : HandlerEvent) (name value : string) : HandlerEvent :=
  {| httpMethod := httpMethod event;
     body := body event;
     headers := <[name := value]> (headers event);
     queryStringParameters := queryStringParameters event |}.

(** The response of lines 172-179 for the results of the notifications. *)
Definition summaryResponse (results : list WebhookResult) : Response :=
  {| statusCode := 200;
     responseBody :=
       BodyJson (results ≫= λ r, default [] (deletedObjectIds r))
                (results ≫= λ r, default [] (reIndexedObjectIds r));
     contentType := Some "application/json" |}.

Definition uncaughtResponse : Response :=
  {| statusCode := 500; responseBody := BodyUncaught; contentType := None |}.

(** The items of [response.data] in the order line 207 lists them. *)
Definition responseItems (r : DeliveryResponse) : list IContentItem :=
  resp_item r :: resp_linkedItems r.

Section FurtherConditions.
Context {St : Type} `{!Collaborators St, !Projection, !Platform}.

(** A request that passes every guard of lines 66-99. *)
Definition acceptedRequest (envVars : EnvVars) (event : HandlerEvent) : Prop :=
  httpMethod event = "POST"
  ∧ truthy (body event) = true
  ∧ truthy (KONTENT_SECRET envVars) = true
  ∧ truthy (ALGOLIA_API_KEY envVars) = true
  ∧ truthy (headers event !! "x-kc-signature") = true
  ∧ isValidSignatureFromString (default "" (body event))
      (default "" (KONTENT_SECRET envVars))
      (headers event !! "x-kontent-ai-signature") = true
  ∧ is_Some (JSON_parse (default "" (body event)))
  ∧ areValidQueryParams (queryStringParameters event) = true.


(** An index that rejects every save. *)
Definition savesReject : Prop :=
  ∀ (st : St) idx records, (index_saveObjects st idx records).2 = None.
End FurtherConditions.

(** The reference world behind an index that cannot be written: reads as in
    [Reference], every write rejects and changes nothing. *)
Module ReadOnly.
#[export] Instance collaborators : Collaborators Reference.World := {|
  index_search := @index_search _ Reference.collaborators;
  deliver_item := @deliver_item _ Reference.collaborators;
  index_saveObjects w _ _ := (w, None);
  index_deleteObjects w _ _ := (w, None);
|}.

Definition run (webhookData : WebhookData) (w : Reference.World)
    : Reference.World * Trace * Response :=
  @handler Reference.World collaborators Reference.projection
    (Reference.platform [("payload", webhookData)]) Reference.envVars
    Reference.request w.
End ReadOnly.

Module MoreReference.
Import Reference.

(** post-1 is fetched together with a linked item that carries the codename
    "post-1" too, of type "image". *)
Definition shadow : IContentItem := entity "post-1" "en" "image" [].
Definition post1_shadowed : DeliveryResponse :=
  {| resp_item := post1; resp_linkedItems := [shadow] |}.

(** page-1 is indexed, and its entity is of type "page". *)
Definition page1_record : AlgoliaItem := record "page-1_en" "page-1" "en".
Definition page1_indexed : World := world [page1_record] [page1].
Definition page1_changed : IWebhookDeliveryResponse :=
  notification [changed "page-1" "en"].

Definition post1_twice : IWebhookDeliveryResponse :=
  notification [changed "post-1" "en"; changed "post-1" "en"].

Definition request_without_kc_signature : HandlerEvent :=
  {| httpMethod := "POST";
     body := Some "payload";
     headers := list_to_map [("x-kontent-ai-signature", "secret")];
     queryStringParameters := queryStringParameters request |}.
End MoreReference.

(** * Properties of the containers *)

Section JsMapFacts.
Context {V : Type}.
Implicit Types (m : JsMap.t V) (k : string) (v : V).

Lemma JsMap_keys_set k v m :
  JsMap.keys (JsMap.set k v m)
  = if decide (k ∈ JsMap.keys m) then JsMap.keys m else JsMap.keys m ++ [k].
Proof.
  unfold JsMap.keys. induction m as [|[k' v'] m IH]; csimpl.
  - done.
  - destruct (decide (k = k')) as [->|Hne]; csimpl.
    + rewrite decide_True; [done|]. apply list_elem_of_here.
    + rewrite IH. destruct (decide (k ∈ m.*1)) as [Hin|Hnin].
      * rewrite decide_True; [done|]. by apply list_elem_of_further.
      * rewrite decide_False; [done|].
        intros [?|?]%elem_of_cons; congruence.
Qed.

Lemma JsMap_set_NoDup k v m :
  NoDup (JsMap.keys m) → NoDup (JsMap.keys (JsMap.set k v m)).
Proof.
  intros Hnd. rewrite JsMap_keys_set. case_decide; [done|].
  apply NoDup_app. split_and!; [done| |apply NoDup_singleton].
  intros x Hx ->%list_elem_of_singleton. done.
Qed.

Lemma JsMap_elem_of_set k v k0 v0 m :
  NoDup (JsMap.keys m) →
  (k, v) ∈ JsMap.set k0 v0 m ↔ (k = k0 ∧ v = v0) ∨ (k ≠ k0 ∧ (k, v) ∈ m).
Proof.
  unfold JsMap.keys. induction m as [|[k' v'] m IH]; simpl; intros Hnd.
  - rewrite list_elem_of_singleton. split.
    + intros [= -> ->]. by left.
    + intros [[-> ->]|[_ []%not_elem_of_nil]]. done.
  - apply NoDup_cons in Hnd as [Hk' Hnd].
    destruct (decide (k0 = k')) as [->|Hne].
    + rewrite !elem_of_cons. split.
      * intros [[= -> ->]|Hin]; [by left|]. right. split; [|by right].
        intros ->. apply Hk'. apply list_elem_of_fmap. by exists (k', v).
      * intros [[-> ->]|[Hne [[= ? ?]|Hin]]]; [by left|done|by right].
    + rewrite !elem_of_cons, IH by done. split.
      * intros [[= -> ->]|[[-> ->]|[? ?]]]; [right|left|right]; split; auto.
      * intros [[-> ->]|[? [[= -> ->]|?]]]; [right; by left|by left|right; by right].
Qed.

Lemma JsMap_from_entries_snoc (l : list (string * V)) k v :
  JsMap.from_entries (l ++ [(k, v)]) = JsMap.set k v (JsMap.from_entries l).
Proof. unfold JsMap.from_entries. by rewrite foldl_app. Qed.

(** A JS Map never holds a key twice. *)
Lemma JsMap_from_entries_NoDup (l : list (string * V)) :
  NoDup (JsMap.keys (JsMap.from_entries l)).
Proof.
  induction l as [|[k v] l IH] using rev_ind.
  - apply NoDup_nil_2.
  - rewrite JsMap_from_entries_snoc. by apply JsMap_set_NoDup.
Qed.

(** The entry a JS Map holds for a key is the last one written for it. *)
Lemma JsMap_elem_of_from_entries (l : list (string * V)) k v :
  (k, v) ∈ JsMap.from_entries l
  ↔ ∃ pre post, l = pre ++ (k, v) :: post ∧ k ∉ post.*1.
Proof.
  revert k v. induction l as [|[k0 v0] l IH] using rev_ind; intros k v.
  - split.
    + intros []%not_elem_of_nil.
    + intros (pre & post & Heq & _). by destruct pre.
  - rewrite JsMap_from_entries_snoc.
    rewrite JsMap_elem_of_set by apply JsMap_from_entries_NoDup.
    split.
    + intros [[-> ->]|[Hne Hin]].
      * exists l, []. split; [done|]. apply not_elem_of_nil.
      * apply IH in Hin as (pre & post & -> & Hpost).
        exists pre, (post ++ [(k0, v0)]). split.
        { by rewrite <- app_assoc. }
        rewrite fmap_app. apply not_elem_of_app. split; [done|].
        simpl. by intros ->%list_elem_of_singleton.
    + intros (pre & post & Heq & Hpost).
      destruct post as [|p post _] using rev_ind.
      * apply app_inj_tail in Heq as [_ [= -> ->]]. by left.
      * rewrite app_comm_cons, app_assoc in Heq.
        apply app_inj_tail in Heq as [-> <-].
        rewrite fmap_app in Hpost. apply not_elem_of_app in Hpost as [Hpost Hk].
        right. split.
        { intros ->. apply Hk. simpl. apply list_elem_of_here. }
        apply IH. by exists pre, post.
Qed.

Lemma JsMap_keys_from_entries (l : list (string * V)) k :
  k ∈ JsMap.keys (JsMap.from_entries l) ↔ k ∈ l.*1.
Proof.
  induction l as [|[k0 v0] l IH] using rev_ind.
  - done.
  - rewrite JsMap_from_entries_snoc, JsMap_keys_set, fmap_app, elem_of_app.
    simpl. rewrite list_elem_of_singleton.
    case_decide as Hin.
    + rewrite IH. split; [by left|]. intros [?| ->]; [done|]. by apply IH.
    + by rewrite elem_of_app, IH, list_elem_of_singleton.
Qed.

Lemma JsMap_get_Some k v m :
  JsMap.get k m = Some v → (k, v) ∈ m.
Proof.
  induction m as [|[k' v'] m IH]; simpl; [done|].
  case_decide as Hk.
  - intros [= ->]. subst. apply list_elem_of_here.
  - intros. apply list_elem_of_further. auto.
Qed.

End JsMapFacts.

Lemma JsSet_elem_of_from_list (xs : list string) x :
  x ∈ JsSet.from_list xs ↔ x ∈ xs.
Proof.
  unfold JsSet.from_list. induction xs as [|y xs IH] using rev_ind; [done|].
  rewrite foldl_app. simpl. unfold JsSet.add at 1.
  rewrite elem_of_app, list_elem_of_singleton. case_decide as Hin.
  - rewrite IH. split; [by left|]. intros [?| ->]; [done|]. by apply IH.
  - by rewrite elem_of_app, IH, list_elem_of_singleton.
Qed.


(** * Properties of the handler *)

Lemma concat_fmap_bind {A B} (f : A → list B) (l : list A) :
  concat (f <$> l) = l ≫= f.
Proof. induction l as [|x l IH]; [done|]. csimpl. by rewrite IH. Qed.

Lemma Task_bind_value {A B} (m : Task A) (f : A → Task B) :
  (m ≫= f).1 = (f m.1).1.
Proof. unfold mbind, Task_bind. by destruct (f m.1). Qed.

Lemma Task_bind_trace {A B} (m : Task A) (f : A → Task B) :
  (m ≫= f).2 = m.2 ++ (f m.1).2.
Proof. unfold mbind, Task_bind. by destruct (f m.1). Qed.

Lemma Task_all_value {A} (ps : list (Task A)) : (Task_all ps).1 = ps.*1.
Proof.
  induction ps as [|p ps IH]; [done|]. cbn [Task_all].
  rewrite !Task_bind_value. csimpl. by rewrite IH.
Qed.

Lemma Task_all_trace {A} (ps : list (Task A)) : (Task_all ps).2 = ps ≫= snd.
Proof.
  induction ps as [|p ps IH]; [done|]. cbn [Task_all].
  rewrite !Task_bind_trace. csimpl.
  by rewrite IH, app_nil_r.
Qed.

Section HandlerFacts.
Context {St : Type} `{!Collaborators St, !Projection, !Platform}.
Implicit Types (st : St) (index : SearchIndex) (client : DeliveryClient)
  (slug : string) (item : WebhookItem) (e r : AlgoliaItem) (a : Action)
  (d : IContentItem) (p : IWebhookDeliveryResponse).

Lemma itemsByCodename_key response c d :
  JsMap.get c (itemsByCodename response) = Some d → sys_codename (system d) = c.
Proof.
  intros Hget%JsMap_get_Some. destruct response as [resp|]; cbn [itemsByCodename] in Hget.
  - apply JsMap_elem_of_from_entries in Hget as (pre & post & Heq & _).
    assert ((c, d) ∈ (λ i, (sys_codename (system i), i)) <$> (resp_item resp :: resp_linkedItems resp))
      as Hin by (rewrite Heq; apply elem_of_app; right; apply list_elem_of_here).
    apply list_elem_of_fmap in Hin as (i & [= -> ->] & _). done.
  - by apply not_elem_of_nil in Hget.
Qed.

Lemma existingCallback_trace st client slug e :
  (existingCallback st client slug e).2 = [fetchCall st client (codename e) (language e)].
Proof.
  unfold existingCallback. rewrite Task_bind_trace. simpl.
  destruct (JsMap.get _ _); [destruct (notIndexableType _)|]; done.
Qed.

Lemma existingCallback_value st client slug e :
  (existingCallback st client slug e).1
  = let g := graphOf st client (codename e) (language e) in
    match JsMap.get (codename e) g with
    | None => removeAction e
    | Some d =>
        if notIndexableType d then removeAction e
        else {| objectIdsToRemove := [];
                recordsToReindex := [convertToAlgoliaItem g slug d] |}
    end.
Proof.
  unfold existingCallback. rewrite Task_bind_value. simpl. unfold graphOf.
  destruct (JsMap.get _ _); [destruct (notIndexableType _)|]; done.
Qed.

Lemma itemCallback_new_value st index client slug item :
  hitsOf st index item = [] →
  (itemCallback st index client slug item).1
  = let g := graphOf st client (item_codename item) (item_language item) in
    [ match JsMap.get (item_codename item) g with
      | None => noAction
      | Some d =>
          if notIndexableType d then noAction
          else {| objectIdsToRemove := [];
                  recordsToReindex :=
                    if canConvertToAlgoliaItem slug d
                    then [convertToAlgoliaItem g slug d] else [] |}
      end ].
Proof.
  unfold hitsOf, itemCallback. intros Hhits.
  rewrite Task_bind_value. simpl. rewrite Hhits. simpl.
  rewrite Task_bind_value. simpl. unfold graphOf.
  destruct (JsMap.get _ _); [destruct (notIndexableType _)|]; done.
Qed.

Lemma itemCallback_new_trace st index client slug item :
  hitsOf st index item = [] →
  (itemCallback st index client slug item).2
  = [searchCall st index item;
     fetchCall st client (item_codename item) (item_language item)].
Proof.
  unfold hitsOf, itemCallback. intros Hhits.
  rewrite Task_bind_trace. simpl. rewrite Hhits. simpl.
  rewrite Task_bind_trace. simpl.
  destruct (JsMap.get _ _); [destruct (notIndexableType _)|]; done.
Qed.

Lemma itemCallback_existing_value st index client slug item :
  hitsOf st index item ≠ [] →
  (itemCallback st index client slug item).1
  = (λ e, (existingCallback st client slug e).1) <$> hitsOf st index item.
Proof.
  unfold hitsOf, itemCallback. intros Hhits.
  rewrite Task_bind_value. simpl.
  destruct (default [] _) as [|e es]; [done|]. cbn [length bool_decide].
  rewrite bool_decide_eq_false_2 by done.
  rewrite Task_all_value, <- list_fmap_compose. done.
Qed.

Lemma itemCallback_existing_trace st index client slug item :
  hitsOf st index item ≠ [] →
  (itemCallback st index client slug item).2
  = searchCall st index item
    :: ((λ e, fetchCall st client (codename e) (language e)) <$> hitsOf st index item).
Proof.
  unfold hitsOf, itemCallback. intros Hhits.
  rewrite Task_bind_trace. simpl.
  destruct (default [] _) as [|e es] eqn:Hd; [done|].
  rewrite bool_decide_eq_false_2 by done.
  rewrite Task_all_trace. unfold searchCall. f_equal.
  generalize (e :: es). intros l. induction l as [|x l IH]; [done|].
  csimpl. rewrite existingCallback_trace, IH. done.
Qed.

Lemma itemCallback_reads st index client slug item :
  Forall (λ c, is_read c = true) (itemCallback st index client slug item).2.
Proof.
  destruct (decide (hitsOf st index item = [])) as [Hh|Hh].
  - rewrite itemCallback_new_trace by done. repeat constructor.
  - rewrite itemCallback_existing_trace by done. constructor; [done|].
    apply Forall_fmap, Forall_true. done.
Qed.

Lemma webhookActions_value st index slug p :
  (webhookActions st index slug p).1
  = data_items p ≫= λ item, (itemCallback st index (clientOf p) slug item).1.
Proof.
  unfold webhookActions. rewrite Task_bind_value. simpl.
  rewrite Task_all_value, <- list_fmap_compose. apply concat_fmap_bind.
Qed.

Lemma webhookActions_trace st index slug p :
  (webhookActions st index slug p).2
  = data_items p ≫= λ item, (itemCallback st index (clientOf p) slug item).2.
Proof.
  unfold webhookActions. rewrite Task_bind_trace. simpl.
  rewrite Task_all_trace, app_nil_r. unfold clientOf.
  induction (data_items p) as [|x l IH]; [done|]. csimpl. by rewrite IH.
Qed.

Lemma webhookActions_reads st index slug p :
  Forall (λ c, is_read c = true) (webhookActions st index slug p).2.
Proof.
  rewrite webhookActions_trace.
  induction (data_items p) as [|x l IH]; [constructor|].
  rewrite bind_cons. apply Forall_app. split; [apply itemCallback_reads|done].
Qed.

(** *** The merge (lines 153-156) *)

Lemma record_entries (actions : list Action) :
  (actions ≫= λ a, (λ i, (codename i, i)) <$> recordsToReindex a)
  = (λ i, (codename i, i)) <$> producedRecords actions.
Proof.
  unfold producedRecords. induction actions as [|a l IH]; [done|].
  rewrite !bind_cons, fmap_app, IH. done.
Qed.

Lemma elem_of_recordsToReIndex (actions : list Action) r :
  r ∈ recordsToReIndex actions
  ↔ ∃ pre post, producedRecords actions = pre ++ r :: post
                ∧ codename r ∉ codename <$> post.
Proof.
  unfold recordsToReIndex, JsMap.values. rewrite record_entries.
  rewrite list_elem_of_fmap. split.
  - intros ([k r'] & -> & Hin). simpl.
    apply JsMap_elem_of_from_entries in Hin as (pre & post & Heq & Hpost).
    apply fmap_app_inv in Heq as (pre' & post' & -> & Heq & Hprod).
    symmetry in Heq.
    apply fmap_cons_inv in Heq as (x & post'' & [= -> ->] & -> & ->).
    exists pre', post''. split; [done|].
    by rewrite <- list_fmap_compose in Hpost.
  - intros (pre & post & Heq & Hpost). exists (codename r, r). split; [done|].
    apply JsMap_elem_of_from_entries.
    exists ((λ i, (codename i, i)) <$> pre), ((λ i, (codename i, i)) <$> post).
    split; [by rewrite Heq, fmap_app|].
    by rewrite <- list_fmap_compose.
Qed.

Lemma recordsToReIndex_codenames (actions : list Action) :
  codename <$> recordsToReIndex actions
  = JsMap.keys (JsMap.from_entries
                  ((λ i, (codename i, i)) <$> producedRecords actions)).
Proof.
  unfold recordsToReIndex. rewrite record_entries.
  set (m := JsMap.from_entries _).
  assert (Forall (λ kv, kv.1 = codename kv.2) m) as Hm.
  { apply Forall_forall. intros [k v] Hin. simpl.
    apply JsMap_elem_of_from_entries in Hin as (pre & post & Heq & _).
    assert ((k, v) ∈ (λ i, (codename i, i)) <$> producedRecords actions) as Hin
      by (rewrite Heq; apply elem_of_app; right; apply list_elem_of_here).
    apply list_elem_of_fmap in Hin as (i & [= -> ->] & _). done. }
  unfold JsMap.values, JsMap.keys.
  induction Hm as [|[k v] m' Hkv _ IH]; [done|].
  csimpl in *. by rewrite IH, Hkv.
Qed.


Lemma recordsToReIndex_covers (actions : list Action) r :
  r ∈ producedRecords actions →
  ∃ r', r' ∈ recordsToReIndex actions ∧ codename r' = codename r.
Proof.
  intros Hin.
  assert (codename r ∈ codename <$> recordsToReIndex actions) as Hc.
  { rewrite recordsToReIndex_codenames. apply JsMap_keys_from_entries.
    rewrite <- list_fmap_compose. apply list_elem_of_fmap. by exists r. }
  apply list_elem_of_fmap in Hc as (r' & Heq & Hr'). by exists r'.
Qed.

Lemma recordsToReIndex_produced (actions : list Action) r :
  r ∈ recordsToReIndex actions → r ∈ producedRecords actions.
Proof.
  intros (pre & post & -> & _)%elem_of_recordsToReIndex.
  apply elem_of_app. right. apply list_elem_of_here.
Qed.

Lemma elem_of_mergedObjectIdsToRemove (actions : list Action) id :
  id ∈ mergedObjectIdsToRemove actions
  ↔ ∃ a, a ∈ actions ∧ id ∈ objectIdsToRemove a.
Proof.
  unfold mergedObjectIdsToRemove.
  rewrite JsSet_elem_of_from_list, list_elem_of_bind.
  split; intros (a & ? & ?); by exists a.
Qed.

(** *** Where records and removals come from *)

Lemma record_origin st index slug p a r :
  a ∈ (webhookActions st index slug p).1 → r ∈ recordsToReindex a →
  ∃ item c l d,
    item ∈ data_items p
    ∧ fetchCall st (clientOf p) c l ∈ (webhookActions st index slug p).2
    ∧ JsMap.get c (graphOf st (clientOf p) c l) = Some d
    ∧ notIndexableType d = false
    ∧ r = convertToAlgoliaItem (graphOf st (clientOf p) c l) slug d
    ∧ ((hitsOf st index item = []
        ∧ c = item_codename item ∧ l = item_language item
        ∧ canConvertToAlgoliaItem slug d = true)
       ∨ (∃ e, e ∈ hitsOf st index item ∧ c = codename e ∧ l = language e)).
Proof.
  rewrite webhookActions_value, webhookActions_trace.
  intros (item & Ha & Hitem)%list_elem_of_bind Hr.
  destruct (decide (hitsOf st index item = [])) as [Hh|Hh].
  - rewrite itemCallback_new_value in Ha by done.
    apply list_elem_of_singleton in Ha. cbn zeta in Ha.
    destruct (JsMap.get _ _) as [d|] eqn:Hget;
      [|subst a; by apply not_elem_of_nil in Hr].
    destruct (notIndexableType d) eqn:Hty;
      [subst a; by apply not_elem_of_nil in Hr|].
    destruct (canConvertToAlgoliaItem slug d) eqn:Hcan;
      [|subst a; by apply not_elem_of_nil in Hr].
    subst a. apply list_elem_of_singleton in Hr.
    exists item, (item_codename item), (item_language item), d.
    split_and!; try done; [|by left].
    apply list_elem_of_bind. exists item. split; [|done].
    rewrite itemCallback_new_trace by done. set_solver.
  - rewrite itemCallback_existing_value in Ha by done.
    apply list_elem_of_fmap in Ha as (e & -> & He).
    rewrite existingCallback_value in Hr. cbn zeta in Hr.
    destruct (JsMap.get _ _) as [d|] eqn:Hget;
      [|by apply not_elem_of_nil in Hr].
    destruct (notIndexableType d) eqn:Hty;
      [by apply not_elem_of_nil in Hr|].
    apply list_elem_of_singleton in Hr.
    exists item, (codename e), (language e), d.
    split_and!; try done; [|right; by exists e].
    apply list_elem_of_bind. exists item. split; [|done].
    rewrite itemCallback_existing_trace by done.
    apply list_elem_of_further, list_elem_of_fmap. by exists e.
Qed.

Lemma removal_origin st index slug p a id :
  a ∈ (webhookActions st index slug p).1 → id ∈ objectIdsToRemove a →
  ∃ item e,
    item ∈ data_items p
    ∧ searchCall st index item ∈ (webhookActions st index slug p).2
    ∧ e ∈ hitsOf st index item ∧ id = objectID e
    ∧ ∀ d, JsMap.get (codename e)
             (graphOf st (clientOf p) (codename e) (language e)) = Some d →
           notIndexableType d = true.
Proof.
  rewrite webhookActions_value, webhookActions_trace.
  intros (item & Ha & Hitem)%list_elem_of_bind Hid.
  destruct (decide (hitsOf st index item = [])) as [Hh|Hh].
  - rewrite itemCallback_new_value in Ha by done.
    apply list_elem_of_singleton in Ha. cbn zeta in Ha.
    destruct (JsMap.get _ _) as [d|];
      [destruct (notIndexableType d)|]; subst a; by apply not_elem_of_nil in Hid.
  - rewrite itemCallback_existing_value in Ha by done.
    apply list_elem_of_fmap in Ha as (e & -> & He).
    rewrite existingCallback_value in Hid. cbn zeta in Hid.
    exists item, e. split_and!; try done.
    + apply list_elem_of_bind. exists item. split; [|done].
      rewrite itemCallback_existing_trace by done. apply list_elem_of_here.
    + destruct (JsMap.get _ _) as [d|];
        [destruct (notIndexableType d)|]; simpl in Hid;
        try (by apply list_elem_of_singleton in Hid);
        by apply not_elem_of_nil in Hid.
    + intros d Hget. rewrite Hget in Hid.
      destruct (notIndexableType d); [done|]. by apply not_elem_of_nil in Hid.
Qed.

Lemma removal_scheduled st index slug p item e :
  item ∈ data_items p → e ∈ hitsOf st index item →
  (∀ d, JsMap.get (codename e)
          (graphOf st (clientOf p) (codename e) (language e)) = Some d →
        notIndexableType d = true) →
  objectID e ∈ mergedObjectIdsToRemove (webhookActions st index slug p).1.
Proof.
  intros Hitem He Hroot. apply elem_of_mergedObjectIdsToRemove.
  exists (existingCallback st (clientOf p) slug e).1. split.
  - rewrite webhookActions_value. apply list_elem_of_bind. exists item.
    split; [|done]. rewrite itemCallback_existing_value.
    + apply list_elem_of_fmap. by exists e.
    + intros Hnil. rewrite Hnil in He. by apply not_elem_of_nil in He.
  - rewrite existingCallback_value. cbn zeta.
    destruct (JsMap.get _ _) as [d|] eqn:Hget; [|apply list_elem_of_here].
    rewrite (Hroot d eq_refl). apply list_elem_of_here.
Qed.

(** *** The calls of one notification, and of a run *)

Lemma processWebhook_trace st index slug p :
  let actions := (webhookActions st index slug p).1 in
  ∃ deletes,
    (processWebhook index slug p st).1.2
    = (webhookActions st index slug p).2
      ++ saveCalls index (recordsToReIndex actions) ++ deletes
    ∧ (deletes = []
       ∨ deletes = [CallDelete index (mergedObjectIdsToRemove actions)]
         ∧ mergedObjectIdsToRemove actions ≠ []).
Proof.
  unfold processWebhook, mbind, Async_bind, await_reads, saveObjects, deleteObjects.
  destruct (webhookActions st index slug p) as [actions reads]. cbn [fst snd].
  set (recs := recordsToReIndex actions).
  set (ids := mergedObjectIdsToRemove actions).
  assert (∀ A (l : list A), bool_decide (length l = 0) = false → l ≠ []) as Hne.
  { intros A l Hl ->. by rewrite bool_decide_eq_true_2 in Hl. }
  destruct recs as [|r recs]; cbn [length bool_decide saveCalls];
    [rewrite bool_decide_eq_true_2 by done
    |rewrite bool_decide_eq_false_2 by done];
    destruct (bool_decide (length ids = 0)) eqn:Hids; cbn.
  - exists []. by rewrite !app_nil_r; auto.
  - destruct (index_deleteObjects st index ids) as [st2 [r2|]]; cbn;
      exists [CallDelete index ids]; rewrite ?app_nil_r;
      (split; [done|right; eauto]).
  - destruct (index_saveObjects st index (r :: recs)) as [st1 [r1|]]; cbn;
      exists []; rewrite ?app_nil_r; (split; [done|by left]).
  - destruct (index_saveObjects st index (r :: recs)) as [st1 [r1|]]; cbn.
    + destruct (index_deleteObjects st1 index ids) as [st2 [r2|]]; cbn;
        exists [CallDelete index ids]; rewrite ?app_nil_r;
        (split; [done|right; eauto]).
    + exists []. rewrite ?app_nil_r. split; [done|by left].
Qed.

(** Reads never make a notification's async function reject. *)
Lemma processWebhook_returns st index slug p :
  (∀ st' idx recs, is_Some (index_saveObjects st' idx recs).2) →
  (∀ st' idx ids, is_Some (index_deleteObjects st' idx ids).2) →
  is_Some (processWebhook index slug p st).2.
Proof.
  intros Hsave Hdel.
  unfold processWebhook, mbind, Async_bind, await_reads, saveObjects, deleteObjects.
  destruct (webhookActions st index slug p) as [actions reads].
  set (recs := recordsToReIndex actions).
  set (ids := mergedObjectIdsToRemove actions).
  destruct (bool_decide (length recs = 0));
    destruct (bool_decide (length ids = 0)); cbn; [by eexists| | |].
  - specialize (Hdel st index ids).
    destruct (index_deleteObjects st index ids) as [st2 [r2|]]; cbn in *;
      [by eexists|by destruct Hdel].
  - specialize (Hsave st index recs).
    destruct (index_saveObjects st index recs) as [st1 [r1|]]; cbn in *;
      [by eexists|by destruct Hsave].
  - specialize (Hsave st index recs).
    destruct (index_saveObjects st index recs) as [st1 [r1|]]; cbn in *;
      [|by destruct Hsave].
    specialize (Hdel st1 index ids).
    destruct (index_deleteObjects st1 index ids) as [st2 [r2|]]; cbn in *;
      [by eexists|by destruct Hdel].
Qed.

Lemma Promise_all_segments {A B} (f : A → Async St B) (xs : list A) st :
  ∃ segs, (Promise_all (f <$> xs) st).1.2 = concat segs
          ∧ Forall2 (λ x seg, ∃ st', seg = (f x st').1.2) xs segs.
Proof.
  revert st. induction xs as [|x xs IH]; intros st.
  - exists []. split; [done|constructor].
  - cbn [fmap list_fmap Promise_all].
    destruct (f x st) as [[st1 t1] r1] eqn:Hx.
    destruct (IH st1) as (segs & Htr & Hsegs).
    change (list_fmap A (Async St B) f xs) with (f <$> xs).
    destruct (Promise_all (f <$> xs) st1) as [[st2 t2] r2].
    exists (t1 :: segs). cbn in *. split; [by rewrite Htr|].
    constructor; [|done]. exists st. by rewrite Hx.
Qed.

Lemma Promise_all_trace_ind {A B} (P : Trace → Prop) (f : A → Async St B) :
  P [] → (∀ t1 t2, P t1 → P t2 → P (t1 ++ t2)) →
  (∀ x st, P (f x st).1.2) →
  ∀ xs st, P (Promise_all (f <$> xs) st).1.2.
Proof.
  intros Hnil Happ Hf xs st.
  destruct (Promise_all_segments f xs st) as (segs & -> & Hsegs).
  induction Hsegs as [|x seg xs' segs' [st' ->] _ IH]; [done|].
  simpl. by apply Happ.
Qed.

Lemma Promise_all_returns {A B} (f : A → Async St B) (xs : list A) st :
  (∀ x st', is_Some (f x st').2) → is_Some (Promise_all (f <$> xs) st).2.
Proof.
  intros Hf. revert st. induction xs as [|x xs IH]; intros st.
  - by eexists.
  - cbn [fmap list_fmap Promise_all].
    specialize (Hf x st). destruct (f x st) as [[st1 t1] r1].
    specialize (IH st1).
    change (list_fmap A (Async St B) f xs) with (f <$> xs).
    destruct (Promise_all (f <$> xs) st1) as [[st2 t2] r2]. cbn in *.
    destruct Hf as [? ->], IH as [? ->]. by eexists.
Qed.
End HandlerFacts.

(** ** The whole request *)

Section RunFacts.
Context {St : Type} `{!Collaborators St, !Projection, !Platform}.
Variable envVars : EnvVars.
Implicit Types (st : St) (event : HandlerEvent).

(** A request is either turned down with no call made and the world left
    as it was, or it runs every notification of its body. *)
Lemma handler_cases event st :
  (∃ response, handler envVars event st = (st, [], response)
               ∧ 400 ≤ statusCode response)
  ∨ (truthy (body event) = true
     ∧ areValidQueryParams (queryStringParameters event) = true
     ∧ is_Some (JSON_parse (default "" (body event)))
     ∧ (handler envVars event st).1 = (runNotifications envVars event st).1
     ∧ (is_Some (runNotifications envVars event st).2 →
        statusCode (handler envVars event st).2 = 200)).
Proof.
  unfold handler, serializeUncaughtErrorsHandler, handlerBody.
  destruct (bool_decide (httpMethod event ≠ "POST")).
  { left. eexists. split; [reflexivity|]. simpl. lia. }
  destruct (truthy (body event)) eqn:Hbody; cbn [negb].
  2:{ left. eexists. split; [reflexivity|]. simpl. lia. }
  destruct (negb (truthy (KONTENT_SECRET envVars)) || negb (truthy (ALGOLIA_API_KEY envVars))).
  { left. eexists. split; [reflexivity|]. simpl. lia. }
  destruct (negb (truthy (headers event !! "x-kc-signature")) || _).
  { left. eexists. split; [reflexivity|]. simpl. lia. }
  unfold runNotifications, notificationsOf.
  destruct (JSON_parse (default "" (body event))) as [webhookData|] eqn:Hparse.
  2:{ left. eexists. split; [reflexivity|]. simpl. lia. }
  destruct (areValidQueryParams (queryStringParameters event)) eqn:Hq; cbn [negb].
  2:{ left. eexists. split; [reflexivity|]. simpl. lia. }
  right. split_and!; [done..| |].
  - unfold reconcile, mbind, Async_bind, requestIndex, requestSlug.
    destruct (Promise_all _ st) as [[st1 t1] [results|]]; simpl;
      by rewrite ?app_nil_r.
  - unfold reconcile, mbind, Async_bind, requestIndex, requestSlug.
    destruct (Promise_all _ st) as [[st1 t1] [results|]]; simpl; [done|].
    by intros [? ?].
Qed.

Lemma handler_trace_ind (P : Trace → Prop) event st :
  P [] → (∀ t1 t2, P t1 → P t2 → P (t1 ++ t2)) →
  (∀ p st', P (traceOf (processWebhook (requestIndex envVars event) (requestSlug event) p st'))) →
  P (traceOf (handler envVars event st)).
Proof.
  intros Hnil Happ Hp. unfold traceOf.
  destruct (handler_cases event st) as [(r & -> & _)|(_ & _ & _ & -> & _)]; [done|].
  unfold runNotifications. by apply Promise_all_trace_ind.
Qed.
End RunFacts.


(** * The claims *)

Section Claims.
Context {St : Type} `{!Collaborators St, !Projection, !Platform}.
Implicit Types (st : St) (index : SearchIndex) (client : DeliveryClient)
  (slug : string) (item : WebhookItem) (e r : AlgoliaItem) (a : Action)
  (d : IContentItem) (p : IWebhookDeliveryResponse) (event : HandlerEvent)
  (envVars : EnvVars).

Lemma hasStringProperty_missing name (v : option (gmap string JsValue)) :
  (∀ s, v ≫= (.!! name) ≠ Some (JsString s)) → hasStringProperty name v = false.
Proof.
  intros Hno. destruct v as [o|]; [|done]. simpl in *.
  destruct (o !! name) as [[| | | |s]|]; rewrite ?andb_false_r; try done.
  by destruct (Hno s).
Qed.

Lemma areValidQueryParams_missing event :
  parameterMissing event → areValidQueryParams (queryStringParameters event) = false.
Proof.
  intros (name & Hname & Hno). apply hasStringProperty_missing in Hno.
  unfold areValidQueryParams.
  repeat (apply elem_of_cons in Hname as [->|Hname]);
    [| | |by apply not_elem_of_nil in Hname];
    rewrite Hno, ?andb_false_r; done.
Qed.

Lemma truthy_missing event : bodyMissing event → truthy (body event) = false.
Proof. by intros [->| ->]. Qed.

(** C9.  A request with no body, or with one of the query parameters slug,
    appId and index absent or not a string, is answered with an error
    status; the handler makes no call to the index or to the content
    service, and the world is exactly as before. *)
Theorem input_rejected_before_any_work envVars event st :
  bodyMissing event ∨ parameterMissing event →
  ∃ response,
    handler envVars event st = (st, [], response) ∧ 400 ≤ statusCode response.
Proof.
  intros Hbad.
  destruct (handler_cases envVars event st) as [Hleft|(Hbody & Hparams & _)];
    [done|].
  destruct Hbad as [Hb%truthy_missing|Hq%areValidQueryParams_missing]; congruence.
Qed.
Lemma notIndexableType_false d : notIndexableType d = false ↔ allowedType d.
Proof.
  unfold notIndexableType, allowedType. rewrite andb_false_iff.
  rewrite !bool_decide_eq_false. split.
  - intros [H1|H1]; [left|right]; by apply dec_stable.
  - intros [->| ->]; [left|right]; by intros ?.
Qed.

Lemma notIndexableType_true d : notIndexableType d = true ↔ ¬ allowedType d.
Proof.
  rewrite <- notIndexableType_false. by destruct (notIndexableType d).
Qed.

Lemma recordsToReIndex_single a :
  length (recordsToReindex a) ≤ 1 → recordsToReIndex [a] = recordsToReindex a.
Proof.
  unfold recordsToReIndex. rewrite bind_singleton.
  destruct (recordsToReindex a) as [|r [|r' rs]]; simpl; [done|done|lia].
Qed.

Lemma mergedObjectIdsToRemove_single_empty a :
  objectIdsToRemove a = [] → mergedObjectIdsToRemove [a] = [].
Proof. unfold mergedObjectIdsToRemove. rewrite bind_singleton. by intros ->. Qed.

(** C8.  When the index query returns no record for a changed item, the
    handler makes one fetch for the item itself and produces one action with
    no removal: its single record is the projection of the entity when the
    entity is found with an allowed type and passes the projection
    precondition, and it has no record otherwise (entity not found, type not
    allowed, or precondition failed).  A notification made of that item
    alone has exactly this as its MutationSet. *)
Theorem never_indexed_item_classified_once st index slug pid item :
  hitsOf st index item = [] →
  let client := {| projectId := pid |} in
  let g := graphOf st client (item_codename item) (item_language item) in
  (itemCallback st index client slug item).2
  = [searchCall st index item;
     fetchCall st client (item_codename item) (item_language item)]
  ∧ ∃ a,
      (itemCallback st index client slug item).1 = [a]
      ∧ objectIdsToRemove a = []
      ∧ (∀ d, JsMap.get (item_codename item) g = Some d →
              allowedType d → canConvertToAlgoliaItem slug d = true →
              recordsToReindex a = [convertToAlgoliaItem g slug d])
      ∧ ((∀ d, JsMap.get (item_codename item) g = Some d →
               ¬ allowedType d ∨ canConvertToAlgoliaItem slug d = false) →
         recordsToReindex a = [])
      ∧ mutationSet st index slug
          {| data_items := [item]; message_project_id := pid |}
        = {| recordsToUpsert := recordsToReindex a; removedObjectIds := [] |}.
Proof.
  intros Hhits client g. split; [by apply itemCallback_new_trace|].
  eexists. split; [by apply itemCallback_new_value|]. cbn zeta. fold client g.
  assert (∀ a, (itemCallback st index client slug item).1 = [a] →
               length (recordsToReindex a) ≤ 1 → objectIdsToRemove a = [] →
               mutationSet st index slug {| data_items := [item]; message_project_id := pid |}
               = {| recordsToUpsert := recordsToReindex a; removedObjectIds := [] |}) as Hms.
  { intros a Ha Hlen Hrm. unfold mutationSet.
    rewrite webhookActions_value. cbn [data_items]. rewrite bind_singleton.
    change (clientOf _) with client. rewrite Ha.
    by rewrite recordsToReIndex_single, mergedObjectIdsToRemove_single_empty. }
  rewrite (itemCallback_new_value _ _ _ _ _ Hhits) in Hms. cbn zeta in Hms.
  fold client g in Hms. specialize (Hms _ eq_refl).
  destruct (JsMap.get (item_codename item) g) as [d|] eqn:Hget.
  - destruct (notIndexableType d) eqn:Hty.
    + split_and!; [done| |done|apply Hms; cbn; [lia|done]].
      intros d' [= <-] Hal%notIndexableType_false. congruence.
    + destruct (canConvertToAlgoliaItem slug d) eqn:Hcan.
      * split_and!; [done|by intros d' [= <-]| |apply Hms; cbn; [lia|done]].
        intros Hno. destruct (Hno d eq_refl) as [Hna|?]; [|congruence].
        apply notIndexableType_true in Hna. congruence.
      * split_and!; [done| |done|apply Hms; cbn; [lia|done]].
        intros d' [= <-]. congruence.
  - split_and!; [done|done|done|apply Hms; cbn; [lia|done]].
Qed.

Lemma itemCallback_failed_reads st index client slug item :
  hitsOf st index item = [] →
  deliver_item st client (item_codename item) (item_language item) = None →
  (itemCallback st index client slug item).1 = [noAction].
Proof.
  intros Hhits Hfetch. rewrite itemCallback_new_value by done.
  unfold graphOf. by rewrite Hfetch.
Qed.

Lemma mutationSet_skips_noAction st index slug pid pre item post :
  (itemCallback st index {| projectId := pid |} slug item).1 = [noAction] →
  mutationSet st index slug
    {| data_items := pre ++ item :: post; message_project_id := pid |}
  = mutationSet st index slug
      {| data_items := pre ++ post; message_project_id := pid |}.
Proof.
  intros Hitem. unfold mutationSet. rewrite !webhookActions_value.
  cbn [data_items]. unfold clientOf. cbn [message_project_id].
  rewrite !bind_app, bind_cons, Hitem.
  unfold recordsToReIndex, mergedObjectIdsToRemove.
  by rewrite !bind_app, !bind_cons.
Qed.

(** C7.  A rejected index query gives the handler an empty list of records
    and a rejected content fetch gives it an empty map: neither raises.  An
    item for which both reads fail contributes nothing, so the MutationSet
    of its notification is the one of the remaining items; a failed fetch
    for an existing record is a not-found, which schedules that record for
    removal.  Whatever happens to one item, the actions of the items before
    and after it are the ones they have without it.  No read failure can
    fail the run: provided the index writes succeed, a request either is
    turned down before any call or ends with status 200. *)
Theorem collaborator_failure_stays_local envVars st index slug pid pre bad post :
  let client := {| projectId := pid |} in
  (index_search st index (item_codename bad) (item_language bad) = None →
   (findAgoliaItems st index (item_codename bad) (item_language bad)).1 = [])
  ∧ (deliver_item st client (item_codename bad) (item_language bad) = None →
     (findDeliverItemWithChildrenByCodename st client
        (item_codename bad) (item_language bad)).1 = [])
  ∧ (hitsOf st index bad = [] →
     deliver_item st client (item_codename bad) (item_language bad) = None →
     mutationSet st index slug
       {| data_items := pre ++ bad :: post; message_project_id := pid |}
     = mutationSet st index slug
         {| data_items := pre ++ post; message_project_id := pid |})
  ∧ (∀ e, deliver_item st client (codename e) (language e) = None →
          (existingCallback st client slug e).1 = removeAction e)
  ∧ (webhookActions st index slug
       {| data_items := pre ++ bad :: post; message_project_id := pid |}).1
    = (webhookActions st index slug
         {| data_items := pre; message_project_id := pid |}).1
      ++ (itemCallback st index client slug bad).1
      ++ (webhookActions st index slug
            {| data_items := post; message_project_id := pid |}).1
  ∧ (writesSucceed →
     ∀ event st',
       (∃ response, handler envVars event st' = (st', [], response)
                    ∧ 400 ≤ statusCode response)
       ∨ statusCode (handler envVars event st').2 = 200).
Proof.
  intros client. split_and!.
  - unfold findAgoliaItems. by intros ->.
  - unfold findDeliverItemWithChildrenByCodename. by intros ->.
  - intros Hhits Hfetch. apply mutationSet_skips_noAction.
    by apply itemCallback_failed_reads.
  - intros e Hfetch. rewrite existingCallback_value. unfold graphOf.
    by rewrite Hfetch.
  - rewrite !webhookActions_value. cbn [data_items]. unfold clientOf.
    cbn [message_project_id]. by rewrite bind_app, bind_cons.
  - intros [Hsave Hdelete] event st'.
    destruct (handler_cases envVars event st') as [Hleft|(_ & _ & _ & _ & Hok)];
      [by left|right].
    apply Hok. unfold runNotifications. apply Promise_all_returns.
    intros p st''. by apply processWebhook_returns.
Qed.

Lemma saveCalls_cases index records :
  saveCalls index records = []
  ∨ saveCalls index records = [CallSave index records] ∧ records ≠ [].
Proof. destruct records; [by left|by right]. Qed.





Lemma reads_are_not_deletes (tr : Trace) :
  Forall (λ c, is_read c = true) tr → Forall (λ c, is_delete c = false) tr.
Proof. intros Hr. eapply Forall_impl; [exact Hr|]. by intros []. Qed.




Lemma search_hits_found st index item e :
  e ∈ hitsOf st index item →
  ∃ hits, searchCall st index item
          = CallSearch index (item_codename item) (item_language item) (Some hits)
          ∧ e ∈ hits.
Proof.
  unfold hitsOf, searchCall.
  destruct (index_search st index _ _) as [hits|]; simpl; [by exists hits|].
  by intros ?%not_elem_of_nil.
Qed.

Lemma graph_root_fetched st client c l d :
  JsMap.get c (graphOf st client c l) = Some d →
  ∃ resp, fetchCall st client c l = CallFetch client c l (Some resp)
          ∧ graphOf st client c l = itemsByCodename (Some resp).
Proof.
  unfold graphOf, fetchCall.
  destruct (deliver_item st client c l) as [resp|]; [by exists resp|done].
Qed.

(** C6.  Every record the run hands to the index for saving is the
    projection of an entity that a content fetch of the same run returned
    under its own codename, and that entity has type "article" or
    "product": an entity of any other type is never saved, whether or not a
    record for it was found in the index. *)
Theorem only_allowed_types_are_saved envVars event st idx records r :
  CallSave idx records ∈ traceOf (handler envVars event st) → r ∈ records →
  ∃ client c l resp d,
    CallFetch client c l (Some resp) ∈ traceOf (handler envVars event st)
    ∧ JsMap.get c (itemsByCodename (Some resp)) = Some d
    ∧ allowedType d
    ∧ r = convertToAlgoliaItem (itemsByCodename (Some resp)) (requestSlug event) d.
Proof.
  revert idx records r.
  apply (handler_trace_ind envVars (λ tr, ∀ idx records r,
    CallSave idx records ∈ tr → r ∈ records →
    ∃ client c l resp d,
      CallFetch client c l (Some resp) ∈ tr
      ∧ JsMap.get c (itemsByCodename (Some resp)) = Some d
      ∧ allowedType d
      ∧ r = convertToAlgoliaItem (itemsByCodename (Some resp)) (requestSlug event) d)).
  - intros idx records r []%not_elem_of_nil.
  - intros t1 t2 H1 H2 idx records r [Hin|Hin]%elem_of_app Hr;
      [destruct (H1 _ _ _ Hin Hr) as (client & c & l & resp & d & Hf & ?)
      |destruct (H2 _ _ _ Hin Hr) as (client & c & l & resp & d & Hf & ?)];
      exists client, c, l, resp, d; (split; [|done]);
      apply elem_of_app; [by left|by right].
  - intros p st' idx records r Hin Hr. unfold traceOf in *.
    destruct (processWebhook_trace st' (requestIndex envVars event) (requestSlug event) p)
      as (deletes & Htr & Hd).
    set (index := requestIndex envVars event) in *.
    set (slug := requestSlug event) in *.
    pose proof (webhookActions_reads st' index slug p) as Hreads.
    rewrite Htr in Hin |- *. clear Htr.
    apply elem_of_app in Hin as [Hin|Hin].
    { rewrite Forall_forall in Hreads. by apply Hreads in Hin. }
    apply elem_of_app in Hin as [Hin|Hin].
    2:{ destruct Hd as [->|[-> _]]; [by apply not_elem_of_nil in Hin|].
        by apply list_elem_of_singleton in Hin. }
    destruct (saveCalls_cases index (recordsToReIndex (webhookActions st' index slug p).1))
      as [Hs|[Hs _]]; rewrite Hs in Hin; [by apply not_elem_of_nil in Hin|].
    apply list_elem_of_singleton in Hin. injection Hin as -> ->.
    apply recordsToReIndex_produced, list_elem_of_bind in Hr as (a & Hr & Ha).
    destruct (record_origin _ _ _ _ _ _ Ha Hr)
      as (item & c & l & d & _ & Hfetch & Hget & Hty & -> & _).
    destruct (graph_root_fetched _ _ _ _ _ Hget) as (resp & Hcall & Hgraph).
    exists (clientOf p), c, l, resp, d. rewrite <- Hgraph, <- Hcall.
    split_and!; [|done|by apply notIndexableType_false|done].
    apply elem_of_app. by left.
Qed.

Lemma trace_app_delete_inv (t1 t2 pre post : Trace) c :
  t1 ++ t2 = pre ++ c :: post →
  (∃ post1, t1 = pre ++ c :: post1)
  ∨ (∃ pre2, pre = t1 ++ pre2 ∧ t2 = pre2 ++ c :: post).
Proof.
  intros [(k & -> & Hk)|(k & -> & ->)]%app_eq_inv.
  - destruct k as [|c' k]; simpl in Hk.
    + right. exists []. by rewrite !app_nil_r.
    + injection Hk as <- ->. left. by exists k.
  - right. by exists k.
Qed.

(** C10.  Whenever the run calls the index to delete a batch of object
    identifiers, each identifier of the batch is the objectID of a record
    that an earlier index query of the same run returned. *)
Theorem removed_identifiers_were_found envVars event st pre idx ids post id :
  traceOf (handler envVars event st) = pre ++ CallDelete idx ids :: post →
  id ∈ ids →
  ∃ idx' c l hits e,
    CallSearch idx' c l (Some hits) ∈ pre ∧ e ∈ hits ∧ objectID e = id.
Proof.
  revert pre idx ids post id.
  apply (handler_trace_ind envVars (λ tr, ∀ pre idx ids post id,
    tr = pre ++ CallDelete idx ids :: post → id ∈ ids →
    ∃ idx' c l hits e,
      CallSearch idx' c l (Some hits) ∈ pre ∧ e ∈ hits ∧ objectID e = id)).
  - intros pre idx ids post id Heq. by destruct pre.
  - intros t1 t2 H1 H2 pre idx ids post id Heq Hid.
    apply trace_app_delete_inv in Heq as [(post1 & Heq)|(pre2 & -> & Heq)].
    + by eapply H1.
    + destruct (H2 _ _ _ _ _ Heq Hid) as (idx' & c & l & hits & e & Hin & ?).
      exists idx', c, l, hits, e. split; [|done]. apply elem_of_app. by right.
  - intros p st' pre idx ids post id Heq Hid. unfold traceOf in *.
    destruct (processWebhook_trace st' (requestIndex envVars event) (requestSlug event) p)
      as (deletes & Htr & Hd).
    set (index := requestIndex envVars event) in *.
    set (slug := requestSlug event) in *.
    pose proof (webhookActions_reads st' index slug p) as Hreads.
    rewrite Htr in Heq. clear Htr.
    set (saves := saveCalls index _) in Heq.
    assert (Forall (λ c, is_delete c = false) saves) as Hs.
    { subst saves. destruct (recordsToReIndex _); repeat constructor. }
    clearbody saves.
    assert (deletes = [CallDelete idx ids]
            ∧ ∀ c, c ∈ (webhookActions st' index slug p).2 → c ∈ pre) as [-> Hpre].
    { rewrite app_assoc in Heq.
      assert (Forall (λ c, is_delete c = false)
                ((webhookActions st' index slug p).2 ++ saves)) as Hnd.
      { apply Forall_app. split; [by apply reads_are_not_deletes|done]. }
      apply trace_app_delete_inv in Heq as [(post1 & Heq)|(pre2 & -> & Heq)].
      - rewrite Heq in Hnd. apply Forall_app in Hnd as [_ Hnd].
        by inversion Hnd.
      - destruct Hd as [->|[-> _]]; [by destruct pre2|].
        destruct pre2 as [|c' [|c'' pre2]]; [|done..].
        injection Heq as <- <- <-. split; [done|].
        intros c Hc. rewrite app_nil_r. apply elem_of_app. by left. }
    destruct Hd as [Hd|[Hd _]]; [done|]. injection Hd as -> ->.
    apply elem_of_mergedObjectIdsToRemove in Hid as (a & Ha & Hid).
    destruct (removal_origin _ _ _ _ _ _ Ha Hid)
      as (item & e & _ & Hsearch & He & -> & _).
    destruct (search_hits_found _ _ _ _ He) as (hits & Hcall & Hhit).
    exists index, (item_codename item), (item_language item), hits, e.
    split_and!; [|done..]. apply Hpre. by rewrite <- Hcall.
Qed.

Lemma mutationSet_upsert_origin st index slug p r :
  r ∈ recordsToUpsert (mutationSet st index slug p) →
  ∃ item c l d,
    item ∈ data_items p
    ∧ JsMap.get c (graphOf st (clientOf p) c l) = Some d
    ∧ notIndexableType d = false
    ∧ r = convertToAlgoliaItem (graphOf st (clientOf p) c l) slug d
    ∧ ((hitsOf st index item = []
        ∧ c = item_codename item ∧ l = item_language item
        ∧ canConvertToAlgoliaItem slug d = true)
       ∨ (∃ e, e ∈ hitsOf st index item ∧ c = codename e ∧ l = language e)).
Proof.
  intros Hr. cbn in Hr.
  apply recordsToReIndex_produced, list_elem_of_bind in Hr as (a & Hr & Ha).
  destruct (record_origin _ _ _ _ _ _ Ha Hr)
    as (item & c & l & d & ? & _ & ? & ? & ? & ?).
  by exists item, c, l, d.
Qed.

Lemma mutationSet_removal_origin st index slug p id :
  id ∈ removedObjectIds (mutationSet st index slug p) →
  ∃ item e,
    item ∈ data_items p ∧ e ∈ hitsOf st index item ∧ id = objectID e
    ∧ ∀ d, JsMap.get (codename e)
             (graphOf st (clientOf p) (codename e) (language e)) = Some d →
           notIndexableType d = true.
Proof.
  intros Hid. cbn in Hid.
  apply elem_of_mergedObjectIdsToRemove in Hid as (a & Ha & Hid).
  destruct (removal_origin _ _ _ _ _ _ Ha Hid) as (item & e & ? & _ & ? & ? & ?).
  by exists item, e.
Qed.





(** C4, as the handler does it.  On an index that already agrees with the
    content for the items of a notification, the MutationSet has no object
    identifier to remove, and every record it upserts is one of the records
    the index query returned, unchanged; but it does upsert them again:
    every record the index query returned has its codename among the
    upserts, so the upsert list is empty only when no item of the
    notification has a record in the index. *)
Theorem rerun_on_converged_index st index slug p :
  converged st index slug p →
  let ms := mutationSet st index slug p in
  removedObjectIds ms = []
  ∧ (∀ r, r ∈ recordsToUpsert ms →
          ∃ item, item ∈ data_items p ∧ r ∈ hitsOf st index item)
  ∧ (∀ item e, item ∈ data_items p → e ∈ hitsOf st index item →
               ∃ r, r ∈ recordsToUpsert ms ∧ codename r = codename e)
  ∧ (recordsToUpsert ms = []
     ↔ ∀ item, item ∈ data_items p → hitsOf st index item = []).
Proof.
  intros Hconv ms.
  assert (∀ r, r ∈ recordsToUpsert ms →
               ∃ item, item ∈ data_items p ∧ r ∈ hitsOf st index item) as Hup.
  { intros r (item & c & l & d & Hitem & Hget & Hty & -> & Horigin)%mutationSet_upsert_origin.
    destruct (Hconv item Hitem) as [Hnew Hold].
    destruct Horigin as [(Hhits & -> & -> & Hcan)|(e & He & -> & ->)].
    - destruct (Hnew Hhits d Hget); congruence.
    - destruct (Hold e He) as (d' & Hget' & _ & Hsame).
      exists item. split; [done|].
      rewrite Hget in Hget'. injection Hget' as <-. by rewrite Hsame. }
  assert (∀ item e, item ∈ data_items p → e ∈ hitsOf st index item →
                    ∃ r, r ∈ recordsToUpsert ms ∧ codename r = codename e) as Hagain.
  { intros item e Hitem He.
    destruct (Hconv item Hitem) as [_ Hold].
    destruct (Hold e He) as (d & Hget & Hty & Hsame).
    apply recordsToReIndex_covers.
    apply list_elem_of_bind. exists (existingCallback st (clientOf p) slug e).1.
    split.
    - rewrite existingCallback_value. cbn zeta. rewrite Hget, Hty. cbn.
      rewrite Hsame. apply list_elem_of_here.
    - rewrite webhookActions_value. apply list_elem_of_bind. exists item.
      split; [|done]. rewrite itemCallback_existing_value.
      + apply list_elem_of_fmap. by exists e.
      + intros Hn. rewrite Hn in He. by apply not_elem_of_nil in He. }
  split_and!; [|done|done|].
  - apply elem_of_nil_inv. intros id Hid.
    apply mutationSet_removal_origin in Hid as (item & e & Hitem & He & _ & Hroot).
    destruct (Hconv item Hitem) as [_ Hold].
    destruct (Hold e He) as (d & Hget & Hty & _).
    rewrite (Hroot d Hget) in Hty. done.
  - split.
    + intros Hnil item Hitem. apply elem_of_nil_inv. intros e He.
      destruct (Hagain item e Hitem He) as (r & Hr & _).
      rewrite Hnil in Hr. by apply not_elem_of_nil in Hr.
    + intros Hnone. apply elem_of_nil_inv. intros r Hr.
      destruct (Hup r Hr) as (item & Hitem & Hin).
      rewrite (Hnone item Hitem) in Hin. by apply not_elem_of_nil in Hin.
Qed.

(** C5.  Let a notification name codename X, let the index query for it
    return a record of X, and let X be deleted upstream, so that no content
    fetch for X returns it.  Then the MutationSet of the notification has
    that record's objectID among the identifiers to remove and has no record
    with codename X among the upserts (the record of a projected entity
    carrying the entity's codename). *)
Theorem deleted_entity_is_removed st index slug p item e :
  item ∈ data_items p →
  e ∈ hitsOf st index item →
  codename e = item_codename item →
  (∀ l, JsMap.get (item_codename item)
          (graphOf st (clientOf p) (item_codename item) l) = None) →
  projectionKeepsCodename →
  let ms := mutationSet st index slug p in
  objectID e ∈ removedObjectIds ms
  ∧ ∀ r, r ∈ recordsToUpsert ms → codename r ≠ item_codename item.
Proof.
  intros Hitem He Hcode Hgone Hkeeps ms. split.
  - apply removal_scheduled with item; [done..|].
    intros d. by rewrite Hcode, Hgone.
  - intros r (item' & c & l & d & _ & Hget & _ & -> & _)%mutationSet_upsert_origin Heq.
    rewrite Hkeeps in Heq.
    pose proof (itemsByCodename_key _ _ _ Hget) as Hkey.
    rewrite Heq in Hkey. subst c. by rewrite Hgone in Hget.
Qed.

(** C1.  In the branch for existing records the projection precondition is
    not consulted: a record whose entity is found with an allowed type gets a
    re-index action with the projected record and no removal, also when
    [canConvertToAlgoliaItem] rejects the entity.  (The branch for items
    without a record does consult it, lines 128-130.) *)
Theorem existing_record_skips_projection_check st index slug p item e d :
  item ∈ data_items p →
  e ∈ hitsOf st index item →
  JsMap.get (codename e) (graphOf st (clientOf p) (codename e) (language e)) = Some d →
  allowedType d →
  canConvertToAlgoliaItem slug d = false →
  let a := {| objectIdsToRemove := [];
              recordsToReindex :=
                [convertToAlgoliaItem
                   (graphOf st (clientOf p) (codename e) (language e)) slug d] |} in
  (existingCallback st (clientOf p) slug e).1 = a
  ∧ a ∈ (webhookActions st index slug p).1.
Proof.
  intros Hitem He Hget Hty%notIndexableType_false _ a.
  assert ((existingCallback st (clientOf p) slug e).1 = a) as Ha.
  { rewrite existingCallback_value. cbn zeta. by rewrite Hget, Hty. }
  split; [done|]. rewrite <- Ha, webhookActions_value.
  apply list_elem_of_bind. exists item. split; [|done].
  rewrite itemCallback_existing_value.
  - apply list_elem_of_fmap. by exists e.
  - intros Hn. rewrite Hn in He. by apply not_elem_of_nil in He.
Qed.

End Claims.

Lemma input_rejected_before_any_work_witness :
  parameterMissing Reference.request_without_slug
  ∧ ∃ response,
      @handler _ Reference.collaborators Reference.projection (Reference.platform [])
        Reference.envVars Reference.request_without_slug (Reference.world [] [])
      = (Reference.world [] [], [], response)
      ∧ 400 ≤ statusCode response.
Proof.
  assert (parameterMissing Reference.request_without_slug) as Hmissing.
  { exists "slug". split; [apply list_elem_of_here|]. intros s. by vm_compute. }
  split; [exact Hmissing|].
  apply (@input_rejected_before_any_work _ Reference.collaborators
           Reference.projection (Reference.platform [])).
  right. exact Hmissing.
Defined.

(** * The claims on the reference world *)

#[local] Existing Instance Reference.collaborators.
#[local] Existing Instance Reference.projection.

Ltac concrete := vm_compute; repeat constructor.

(** The two scenarios of section 8 of the specification. *)
Example scenario_first_publication :
  Reference.mutations Reference.unindexed Reference.post1_changed
  = {| recordsToUpsert := [Reference.post1_record]; removedObjectIds := [] |}
  ∧ (Reference.run (LegacyFormat Reference.post1_changed) Reference.unindexed).2
    = {| statusCode := 200; responseBody := BodyJson [] ["post-1_en"];
         contentType := Some "application/json" |}.
Proof. by split. Qed.

Example scenario_deleted_upstream :
  Reference.mutations Reference.post2_deleted Reference.post2_changed
  = {| recordsToUpsert := []; removedObjectIds := ["abc123"] |}
  ∧ (Reference.run (LegacyFormat Reference.post2_changed) Reference.post2_deleted).2
    = {| statusCode := 200; responseBody := BodyJson ["abc123"] [];
         contentType := Some "application/json" |}.
Proof. by split. Qed.

Lemma never_indexed_item_classified_once_witness :
  hitsOf Reference.unindexed Reference.index (Reference.changed "post-1" "en") = []
  ∧ Reference.mutations Reference.unindexed Reference.post1_changed
    = {| recordsToUpsert := [Reference.post1_record]; removedObjectIds := [] |}.
Proof.
  assert (hitsOf Reference.unindexed Reference.index (Reference.changed "post-1" "en") = [])
    as Hhits by reflexivity.
  split; [exact Hhits|].
  destruct (@never_indexed_item_classified_once _ Reference.collaborators
              Reference.projection Reference.unindexed Reference.index "url"
              "project" (Reference.changed "post-1" "en") Hhits)
    as (_ & a & _ & _ & Hrecord & _ & Hms).
  unfold Reference.mutations, Reference.post1_changed, Reference.notification.
  rewrite Hms. f_equal.
  rewrite (Hrecord Reference.post1); [reflexivity|reflexivity|by left|reflexivity].
Defined.

Lemma collaborator_failure_stays_local_witness :
  index_search Reference.post2_unreachable Reference.index "post-2" "en" = None
  ∧ deliver_item Reference.post2_unreachable Reference.client "post-2" "en" = None
  ∧ @writesSucceed _ Reference.collaborators
  ∧ Reference.mutations Reference.post2_unreachable Reference.three_changed
    = Reference.mutations Reference.post2_unreachable
        (Reference.notification
           [Reference.changed "post-1" "en"; Reference.changed "post-3" "en"])
  ∧ Reference.mutations Reference.post2_unreachable Reference.three_changed
    = {| recordsToUpsert := [Reference.post1_record; Reference.post3_record];
         removedObjectIds := [] |}
  ∧ statusCode
      (Reference.run (LegacyFormat Reference.three_changed)
         Reference.post2_unreachable).2 = 200.
Proof.
  assert (index_search Reference.post2_unreachable Reference.index "post-2" "en" = None)
    as Hsearch by reflexivity.
  assert (deliver_item Reference.post2_unreachable Reference.client "post-2" "en" = None)
    as Hfetch by reflexivity.
  assert (@writesSucceed _ Reference.collaborators) as Hwrites.
  { split; intros; by eexists. }
  split_and!; [done..| |reflexivity|].
  - destruct (@collaborator_failure_stays_local _ Reference.collaborators
                Reference.projection (Reference.platform []) Reference.envVars
                Reference.post2_unreachable Reference.index "url" "project"
                [Reference.changed "post-1" "en"] (Reference.changed "post-2" "en")
                [Reference.changed "post-3" "en"])
      as (_ & _ & Hlocal & _).
    apply Hlocal; [|exact Hfetch].
    unfold hitsOf. cbn [item_codename item_language Reference.changed].
    by rewrite Hsearch.
  - destruct (@collaborator_failure_stays_local _ Reference.collaborators
                Reference.projection
                (Reference.platform [("payload", LegacyFormat Reference.three_changed)])
                Reference.envVars
                Reference.post2_unreachable Reference.index "url" "project"
                [] (Reference.changed "post-2" "en") [])
      as (_ & _ & _ & _ & _ & Hrun).
    destruct (Hrun Hwrites Reference.request Reference.post2_unreachable)
      as [(response & Hturned & _)|Hok]; [|exact Hok].
    apply (f_equal (λ x, length x.1.2)) in Hturned. by vm_compute in Hturned.
Defined.

Lemma only_allowed_types_are_saved_witness :
  let tr := traceOf (Reference.run
                       (LegacyFormat (Reference.notification
                                        [Reference.changed "post-1" "en";
                                         Reference.changed "page-1" "en"]))
                       (Reference.world [] [Reference.post1; Reference.page1])) in
  CallSave Reference.index [Reference.post1_record] ∈ tr
  ∧ Reference.post1_record ∈ [Reference.post1_record]
  ∧ ∃ client c l resp d,
      CallFetch client c l (Some resp) ∈ tr
      ∧ JsMap.get c (itemsByCodename (Some resp)) = Some d
      ∧ allowedType d
      ∧ Reference.post1_record
        = convertToAlgoliaItem (itemsByCodename (Some resp)) "url" d.
Proof.
  intros tr.
  assert (CallSave Reference.index [Reference.post1_record] ∈ tr) as Hsaved
    by concrete.
  assert (Reference.post1_record ∈ [Reference.post1_record]) as Hrecord
    by apply list_elem_of_here.
  split_and!; [done..|].
  exact (@only_allowed_types_are_saved _ Reference.collaborators
           Reference.projection _ Reference.envVars Reference.request _ _ _ _
           Hsaved Hrecord).
Defined.

Lemma removed_identifiers_were_found_witness :
  traceOf (Reference.run (LegacyFormat Reference.post2_changed) Reference.post2_deleted)
  = [CallSearch Reference.index "post-2" "en" (Some [Reference.stale_post2]);
     CallFetch Reference.client "post-2" "en" None]
    ++ CallDelete Reference.index ["abc123"] :: []
  ∧ "abc123" ∈ ["abc123"]
  ∧ ∃ idx c l hits e,
      CallSearch idx c l (Some hits)
        ∈ [CallSearch Reference.index "post-2" "en" (Some [Reference.stale_post2]);
           CallFetch Reference.client "post-2" "en" None]
      ∧ e ∈ hits ∧ objectID e = "abc123".
Proof.
  assert (traceOf (Reference.run (LegacyFormat Reference.post2_changed)
                     Reference.post2_deleted)
          = [CallSearch Reference.index "post-2" "en" (Some [Reference.stale_post2]);
             CallFetch Reference.client "post-2" "en" None]
            ++ CallDelete Reference.index ["abc123"] :: []) as Htrace
    by reflexivity.
  assert ("abc123" ∈ ["abc123"]) as Hid by apply list_elem_of_here.
  split_and!; [done..|].
  exact (@removed_identifiers_were_found _ Reference.collaborators
           Reference.projection
           (Reference.platform [("payload", LegacyFormat Reference.post2_changed)])
           Reference.envVars Reference.request Reference.post2_deleted
           _ _ _ _ _ Htrace Hid).
Defined.

Lemma deleted_entity_is_removed_witness :
  Reference.changed "post-2" "en" ∈ data_items Reference.post2_changed
  ∧ Reference.stale_post2
    ∈ hitsOf Reference.post2_deleted Reference.index (Reference.changed "post-2" "en")
  ∧ (∀ l, JsMap.get "post-2"
            (graphOf Reference.post2_deleted Reference.client "post-2" l) = None)
  ∧ projectionKeepsCodename
  ∧ "abc123" ∈ removedObjectIds
                 (Reference.mutations Reference.post2_deleted Reference.post2_changed)
  ∧ ∀ r, r ∈ recordsToUpsert
               (Reference.mutations Reference.post2_deleted Reference.post2_changed) →
         codename r ≠ "post-2".
Proof.
  assert (Reference.changed "post-2" "en" ∈ data_items Reference.post2_changed)
    as Hitem by apply list_elem_of_here.
  assert (Reference.stale_post2
          ∈ hitsOf Reference.post2_deleted Reference.index (Reference.changed "post-2" "en"))
    as Hhit by apply list_elem_of_here.
  assert (∀ l, JsMap.get "post-2"
                 (graphOf Reference.post2_deleted Reference.client "post-2" l) = None)
    as Hgone by reflexivity.
  assert projectionKeepsCodename as Hkeeps by (intros ? ? ?; reflexivity).
  split_and!; [done..| |];
    apply (deleted_entity_is_removed Reference.post2_deleted Reference.index "url"
             Reference.post2_changed (Reference.changed "post-2" "en")
             Reference.stale_post2 Hitem Hhit eq_refl Hgone Hkeeps).
Defined.

Lemma existing_record_skips_projection_check_witness :
  Reference.changed "post-1" "en" ∈ data_items Reference.post1_changed
  ∧ Reference.stale_post1
    ∈ hitsOf Reference.post1_lost_slug Reference.index (Reference.changed "post-1" "en")
  ∧ JsMap.get "post-1" (graphOf Reference.post1_lost_slug Reference.client "post-1" "en")
    = Some Reference.post1_without_slug
  ∧ allowedType Reference.post1_without_slug
  ∧ canConvertToAlgoliaItem "url" Reference.post1_without_slug = false
  ∧ (existingCallback Reference.post1_lost_slug Reference.client "url"
       Reference.stale_post1).1
    = {| objectIdsToRemove := []; recordsToReindex := [Reference.post1_record] |}
  ∧ Reference.mutations Reference.post1_lost_slug Reference.post1_changed
    = {| recordsToUpsert := [Reference.post1_record]; removedObjectIds := [] |}.
Proof.
  assert (Reference.changed "post-1" "en" ∈ data_items Reference.post1_changed)
    as Hitem by apply list_elem_of_here.
  assert (Reference.stale_post1
          ∈ hitsOf Reference.post1_lost_slug Reference.index (Reference.changed "post-1" "en"))
    as Hhit by apply list_elem_of_here.
  assert (JsMap.get "post-1"
            (graphOf Reference.post1_lost_slug Reference.client "post-1" "en")
          = Some Reference.post1_without_slug) as Hget by reflexivity.
  assert (allowedType Reference.post1_without_slug) as Hallowed
    by (left; reflexivity).
  assert (canConvertToAlgoliaItem "url" Reference.post1_without_slug = false)
    as Hrejected by reflexivity.
  split_and!; [done..| |reflexivity].
  apply (existing_record_skips_projection_check Reference.post1_lost_slug
           Reference.index "url" Reference.post1_changed
           (Reference.changed "post-1" "en") Reference.stale_post1
           Reference.post1_without_slug Hitem Hhit Hget Hallowed Hrejected).
Defined.



Lemma rerun_on_converged_index_witness :
  converged Reference.settled Reference.index "url" Reference.post1_changed
  ∧ removedObjectIds (Reference.mutations Reference.settled Reference.post1_changed) = []
  ∧ ∀ r, r ∈ recordsToUpsert
               (Reference.mutations Reference.settled Reference.post1_changed) →
         ∃ item, item ∈ data_items Reference.post1_changed
                 ∧ r ∈ hitsOf Reference.settled Reference.index item.
Proof.
  assert (converged Reference.settled Reference.index "url" Reference.post1_changed)
    as Hconverged.
  { intros item Hitem.
    change (item ∈ [Reference.changed "post-1" "en"]) in Hitem.
    apply list_elem_of_singleton in Hitem as ->. split; [done|].
    intros e He. change (e ∈ [Reference.post1_record]) in He.
    apply list_elem_of_singleton in He as ->.
    exists Reference.post1. by split_and!. }
  split; [exact Hconverged|].
  destruct (rerun_on_converged_index Reference.settled Reference.index "url"
              Reference.post1_changed Hconverged) as (Hnone & Hsame & _ & _).
  by split.
Defined.



(** C4 as stated fails: the first run indexes post-1 and leaves an index on
    which a further run changes nothing, yet the MutationSet of that further
    run is not empty: post-1 is upserted again. *)
Lemma rerun_counterexample :
  let first := Reference.run (LegacyFormat Reference.post1_changed) Reference.unindexed in
  first.1.1 = Reference.settled
  ∧ (Reference.run (LegacyFormat Reference.post1_changed) Reference.settled).1.1
    = Reference.settled
  ∧ Reference.mutations first.1.1 Reference.post1_changed ≠ emptyMutationSet.
Proof. split_and!; [reflexivity|reflexivity|discriminate]. Qed.

(** * Further properties of the handler *)

Section Further.
Context {St : Type} `{!Collaborators St, !Projection, !Platform}.
Implicit Types (st : St) (index : SearchIndex) (client : DeliveryClient)
  (slug : string) (item : WebhookItem) (e r : AlgoliaItem) (a : Action)
  (d : IContentItem) (p : IWebhookDeliveryResponse) (event : HandlerEvent)
  (envVars : EnvVars).

Lemma hasStringProperty_true name (v : option (gmap string JsValue)) :
  hasStringProperty name v = true
  ↔ ∃ o s, v = Some o ∧ o !! name = Some (JsString s).
Proof.
  unfold hasStringProperty. split.
  - destruct v as [o|]; [|done].
    destruct (o !! name) as [[| | | |s]|] eqn:Hlookup;
      rewrite ?andb_false_r; try done.
    intros _. by exists o, s.
  - intros (o & s & -> & ->). rewrite andb_true_r.
    apply bool_decide_eq_true. by eexists.
Qed.

(** X1.  The query parameters are accepted exactly when they are an object
    in which slug, appId and index are all strings; any string will do, the
    empty one included, while a missing object, a missing key or a value of
    another type is refused. *)
Theorem query_parameters_accepted_iff (v : option (gmap string JsValue)) :
  areValidQueryParams v = true
  ↔ ∃ o slugField appId indexName,
      v = Some o
      ∧ o !! "slug" = Some (JsString slugField)
      ∧ o !! "appId" = Some (JsString appId)
      ∧ o !! "index" = Some (JsString indexName).
Proof.
  unfold areValidQueryParams. rewrite !andb_true_iff, !hasStringProperty_true.
  split.
  - intros [[[_ (o & s1 & -> & Hs1)] (o2 & s2 & [= <-] & Hs2)] (o3 & s3 & [= <-] & Hs3)].
    by exists o, s1, s2, s3.
  - intros (o & s1 & s2 & s3 & -> & Hs1 & Hs2 & Hs3).
    split_and!; [by apply bool_decide_eq_true|by exists o, s1|by exists o, s2|by exists o, s3].
Qed.

(** What an accepted request answers: the summary of its notifications, or
    the uncaught-error response when one of them rejects. *)
Lemma handler_accepted envVars event st :
  acceptedRequest envVars event →
  handler envVars event st
  = (let '(st', t, results) := runNotifications envVars event st in
     (st', t, match results with
              | Some results => summaryResponse results
              | None => uncaughtResponse
              end)).
Proof.
  intros (Hpost & Hbody & Hsecret & Hkey & Hkc & Hsig & [wd Hparse] & Hq).
  unfold handler, serializeUncaughtErrorsHandler, handlerBody.
  rewrite bool_decide_eq_false_2 by (by intros ?).
  rewrite Hbody, Hsecret, Hkey, Hkc, Hsig, Hparse, Hq. cbn [negb orb].
  unfold runNotifications, notificationsOf, reconcile, mbind, Async_bind,
    requestIndex, requestSlug.
  rewrite Hparse.
  destruct (Promise_all _ st) as [[st1 t1] [results|]]; simpl;
    by rewrite ?app_nil_r.
Qed.

Lemma webhookActions_no_items st index slug p :
  data_items p = [] → webhookActions st index slug p = ([], []).
Proof. unfold webhookActions. by intros ->. Qed.

(** X3.  A notification without items makes no call at all, leaves the world
    as it is and reports neither a save nor a delete; an accepted request
    all of whose notifications are without items (an empty notifications
    array included) is answered 200 with two empty lists, with no call
    made. *)
Theorem nothing_changed_nothing_done envVars event st index slug p :
  (data_items p = [] →
   processWebhook index slug p st
   = (st, [], Some {| deletedObjectIds := None; reIndexedObjectIds := None |}))
  ∧ (acceptedRequest envVars event →
     (∀ p', p' ∈ notificationsOf event → data_items p' = []) →
     handler envVars event st
     = (st, [], {| statusCode := 200; responseBody := BodyJson [] [];
                   contentType := Some "application/json" |})).
Proof.
  assert (∀ index slug p st, data_items p = [] →
            processWebhook index slug p st
            = (st, [], Some {| deletedObjectIds := None; reIndexedObjectIds := None |}))
    as Hone.
  { intros index' slug' p' st' Hitems.
    unfold processWebhook, mbind, Async_bind, await_reads.
    by rewrite webhookActions_no_items. }
  split; [by apply Hone|].
  intros Haccepted Hempty. rewrite handler_accepted by done.
  unfold runNotifications.
  assert (∃ n, Promise_all
                 (processWebhook (requestIndex envVars event) (requestSlug event)
                  <$> notificationsOf event) st
               = (st, [], Some (replicate n {| deletedObjectIds := None;
                                                reIndexedObjectIds := None |})))
    as [n ->].
  { induction (notificationsOf event) as [|p' ps IH].
    - by exists 0.
    - destruct IH as [n IH].
      { intros p'' Hin. apply Hempty. by apply list_elem_of_further. }
      exists (S n). cbn [fmap list_fmap Promise_all].
      rewrite Hone by (apply Hempty, list_elem_of_here).
      change (list_fmap _ _ ?f ps) with (f <$> ps). by rewrite IH. }
  unfold summaryResponse. do 2 f_equal.
  induction n as [|n IH]; [done|]. cbn in *. by injection IH as -> ->.
Qed.

(** X4.  Every action the handler derives for a notification is a single
    decision: it removes one object identifier, or re-indexes one record, or
    does nothing; it never does both. *)
Theorem action_is_one_decision st index slug p a :
  a ∈ (webhookActions st index slug p).1 →
  length (objectIdsToRemove a) + length (recordsToReindex a) ≤ 1.
Proof.
  rewrite webhookActions_value.
  intros (item & Ha & _)%list_elem_of_bind.
  destruct (decide (hitsOf st index item = [])) as [Hh|Hh].
  - rewrite itemCallback_new_value in Ha by done.
    apply list_elem_of_singleton in Ha as ->. cbn zeta.
    destruct (JsMap.get _ _) as [d|]; [|cbn; lia].
    destruct (notIndexableType d); [cbn; lia|].
    destruct (canConvertToAlgoliaItem slug d); cbn; lia.
  - rewrite itemCallback_existing_value in Ha by done.
    apply list_elem_of_fmap in Ha as (e & -> & _).
    rewrite existingCallback_value. cbn zeta.
    destruct (JsMap.get _ _) as [d|]; [|cbn; lia].
    destruct (notIndexableType d); cbn; lia.
Qed.

(** X5.  An existing record whose entity is still found, but with a type
    other than "article" and "product", gets the removal action: its
    objectID is among the identifiers the notification removes. *)
Theorem retyped_entity_is_removed st index slug p item e d :
  item ∈ data_items p →
  e ∈ hitsOf st index item →
  JsMap.get (codename e) (graphOf st (clientOf p) (codename e) (language e)) = Some d →
  ¬ allowedType d →
  (existingCallback st (clientOf p) slug e).1 = removeAction e
  ∧ objectID e ∈ removedObjectIds (mutationSet st index slug p).
Proof.
  intros Hitem He Hget Hty%notIndexableType_true. split.
  - rewrite existingCallback_value. cbn zeta. by rewrite Hget, Hty.
  - apply removal_scheduled with item; [done..|].
    intros d'. rewrite Hget. by intros [= <-].
Qed.

(** *** More on JS Maps and Sets *)

Lemma JsSet_from_list_snoc (xs : list string) (y : string) :
  JsSet.from_list (xs ++ [y]) = JsSet.add y (JsSet.from_list xs).
Proof. unfold JsSet.from_list. by rewrite foldl_app. Qed.

Lemma JsMap_get_set {V} (k k' : string) (v : V) (m : JsMap.t V) :
  JsMap.get k (JsMap.set k' v m)
  = if decide (k = k') then Some v else JsMap.get k m.
Proof.
  induction m as [|[k0 v0] m IH]; cbn [JsMap.set JsMap.get].
  - by destruct (decide (k = k')).
  - destruct (decide (k' = k0)) as [->|Hne]; cbn [JsMap.get].
    + by destruct (decide (k = k0)).
    + rewrite IH. destruct (decide (k = k0)) as [->|?]; [|done].
      by rewrite decide_False by done.
Qed.

Lemma JsMap_set_fresh {V} (k : string) (v : V) (m : JsMap.t V) :
  k ∉ JsMap.keys m → JsMap.set k v m = m ++ [(k, v)].
Proof.
  unfold JsMap.keys. induction m as [|[k0 v0] m IH]; csimpl; [done|].
  intros [Hne Hnin]%not_elem_of_cons.
  rewrite decide_False by done. by rewrite IH.
Qed.

(** A list of entries with distinct keys is the Map itself. *)
Lemma JsMap_from_entries_NoDup_id {V} (l : list (string * V)) :
  NoDup l.*1 → JsMap.from_entries l = l.
Proof.
  induction l as [|[k v] l IH] using rev_ind; [done|].
  rewrite fmap_app. intros (Hl & Hk & _)%NoDup_app.
  rewrite JsMap_from_entries_snoc, IH by done.
  apply JsMap_set_fresh. intros Hin. apply (Hk k Hin). apply list_elem_of_here.
Qed.

Section Keyed.
Context {A : Type} (key : A → string).

(** The entry found under a key is the last element with that key. *)
Lemma JsMap_get_keyed (l : list A) (k : string) :
  JsMap.get k (JsMap.from_entries ((λ x, (key x, x)) <$> l))
  = last (filter (λ x, key x = k) l).
Proof.
  induction l as [|x l IH] using rev_ind; [done|].
  rewrite fmap_app. cbn [fmap list_fmap].
  rewrite JsMap_from_entries_snoc, JsMap_get_set, filter_app, last_app, IH.
  destruct (decide (k = key x)) as [->|Hne].
  - by rewrite filter_cons_True.
  - rewrite filter_cons_False; [done|]. by intros <-.
Qed.

End Keyed.




Lemma JsSet_from_list_NoDup_id (xs : list string) :
  NoDup xs → JsSet.from_list xs = xs.
Proof.
  unfold JsSet.from_list. induction xs as [|x xs IH] using rev_ind; [done|].
  intros (Hxs & Hx & _)%NoDup_app. rewrite foldl_app, IH by done. cbn.
  unfold JsSet.add. rewrite decide_False; [done|].
  intros Hin. apply (Hx x Hin), list_elem_of_here.
Qed.

Lemma JsMap_from_entries_length {V} (l : list (string * V)) :
  length (JsMap.from_entries l) ≤ length l.
Proof.
  induction l as [|[k v] l IH] using rev_ind; [done|].
  rewrite JsMap_from_entries_snoc, length_app. cbn [length].
  assert (∀ m : JsMap.t V, length (JsMap.set k v m) ≤ S (length m)) as Hset.
  { clear. intros m. induction m as [|[k0 v0] m IH]; cbn; [lia|].
    destruct (decide (k = k0)); cbn; lia. }
  specialize (Hset (JsMap.from_entries l)). lia.
Qed.

Lemma JsSet_from_list_length (xs : list string) :
  length (JsSet.from_list xs) ≤ length xs.
Proof.
  induction xs as [|x xs IH] using rev_ind; [done|].
  rewrite JsSet_from_list_snoc, length_app. unfold JsSet.add. cbn [length].
  destruct (decide (x ∈ _)); rewrite ?length_app; cbn [length]; lia.
Qed.

(** X6.  The merge loses nothing it need not lose: when the records produced
    for a notification have distinct codenames, the records to save are
    those records, all of them and in the order produced; when the object
    identifiers of the actions are distinct, the identifiers to remove are
    those identifiers in order.  In any case the merge never holds more
    than was produced. *)
Theorem merge_keeps_distinct_entries (actions : list Action) :
  (NoDup (codename <$> producedRecords actions) →
   recordsToReIndex actions = producedRecords actions)
  ∧ (NoDup (actions ≫= objectIdsToRemove) →
     mergedObjectIdsToRemove actions = actions ≫= objectIdsToRemove)
  ∧ length (recordsToReIndex actions) ≤ length (producedRecords actions)
  ∧ length (mergedObjectIdsToRemove actions) ≤ length (actions ≫= objectIdsToRemove).
Proof.
  split_and!.
  - intros Hnd. unfold recordsToReIndex. rewrite record_entries.
    rewrite JsMap_from_entries_NoDup_id.
    + unfold JsMap.values. rewrite <- list_fmap_compose. apply list_fmap_id.
    + by rewrite <- list_fmap_compose.
  - apply JsSet_from_list_NoDup_id.
  - unfold recordsToReIndex, JsMap.values. rewrite record_entries, length_fmap.
    etrans; [apply JsMap_from_entries_length|]. by rewrite length_fmap.
  - apply JsSet_from_list_length.
Qed.

(** X7.  The entity the handler classifies for a codename is the last item
    of the Delivery response (the item, then its linked items) that carries
    that codename: a linked item with the codename of the requested item
    takes its place, and when no item of the response carries the codename,
    or the fetch failed, there is no entity. *)
Theorem fetched_entity_is_last_with_codename (response : option DeliveryResponse)
    (c : string) :
  JsMap.get c (itemsByCodename response)
  = match response with
    | Some resp => last (filter (λ i, sys_codename (system i) = c) (responseItems resp))
    | None => None
    end.
Proof.
  destruct response as [resp|]; [|done].
  apply (JsMap_get_keyed (λ i, sys_codename (system i))).
Qed.



(** X2.  Of the header x-kc-signature only the presence is checked: the
    handler answers a request the same way whatever non-empty value the
    header has, the signature being verified on x-kontent-ai-signature; a
    POST request with a body that lacks x-kc-signature (or has it empty) is
    answered 401 with no call made, whatever its other headers. *)
Theorem kc_signature_only_needs_to_be_present envVars event st value :
  (truthy (headers event !! "x-kc-signature") = true → value ≠ "" →
   handler envVars (with_header event "x-kc-signature" value) st
   = handler envVars event st)
  ∧ (httpMethod event = "POST" → truthy (body event) = true →
     truthy (KONTENT_SECRET envVars) = true →
     truthy (ALGOLIA_API_KEY envVars) = true →
     truthy (headers event !! "x-kc-signature") = false →
     handler envVars event st
     = (st, [], {| statusCode := 401; responseBody := BodyText "Unauthorized";
                   contentType := None |})).
Proof.
  split.
  - intros Hkc Hvalue.
    unfold handler, serializeUncaughtErrorsHandler, handlerBody.
    cbn [httpMethod body headers queryStringParameters with_header].
    rewrite lookup_insert_eq, lookup_insert_ne by done. rewrite Hkc.
    assert (truthy (Some value) = true) as ->; [|done].
    cbn. by rewrite bool_decide_eq_false_2.
  - intros Hpost Hbody Hsecret Hkey Hkc.
    unfold handler, serializeUncaughtErrorsHandler, handlerBody.
    rewrite bool_decide_eq_false_2 by (by intros ?).
    by rewrite Hbody, Hsecret, Hkey, Hkc.
Qed.

(** *** Where the calls of a run come from *)

Lemma Promise_all_call_origin {A B} (f : A → Async St B) (xs : list A) st c :
  c ∈ (Promise_all (f <$> xs) st).1.2 →
  ∃ x st',
    x ∈ xs ∧ c ∈ (f x st').1.2
    ∧ (∀ c', c' ∈ (f x st').1.2 → c' ∈ (Promise_all (f <$> xs) st).1.2)
    ∧ (is_Some (Promise_all (f <$> xs) st).2 → is_Some (f x st').2).
Proof.
  revert st. induction xs as [|x xs IH]; intros st.
  - by intros ?%not_elem_of_nil.
  - cbn [fmap list_fmap Promise_all].
    change (list_fmap A (Async St B) f xs) with (f <$> xs).
    destruct (f x st) as [[st1 t1] r1] eqn:Hx.
    specialize (IH st1).
    destruct (Promise_all (f <$> xs) st1) as [[st2 t2] r2]. cbn [fst snd] in *.
    intros [Hin|Hin]%elem_of_app.
    + exists x, st. rewrite Hx. cbn [fst snd].
      split_and!; [apply list_elem_of_here|done| |].
      * intros c' Hc'. apply elem_of_app. by left.
      * destruct r1; [by eexists|]. by intros [? ?].
    + destruct (IH Hin) as (x' & st' & Hx' & Hc & Hsub & Hres).
      exists x', st'. split_and!; [by apply list_elem_of_further|done| |].
      * intros c' Hc'. apply elem_of_app. right. by apply Hsub.
      * intros Hsome. apply Hres. destruct r1, r2; try done; by destruct Hsome.
Qed.

Lemma run_call_origin envVars event st c :
  c ∈ traceOf (handler envVars event st) →
  ∃ p st',
    p ∈ notificationsOf event
    ∧ c ∈ traceOf (processWebhook (requestIndex envVars event) (requestSlug event) p st')
    ∧ ∀ c', c' ∈ traceOf (processWebhook (requestIndex envVars event)
                            (requestSlug event) p st') →
            c' ∈ traceOf (handler envVars event st).
Proof.
  unfold traceOf.
  destruct (handler_cases envVars event st) as [(r & -> & _)|(_ & _ & _ & -> & _)].
  - by intros ?%not_elem_of_nil.
  - unfold runNotifications.
    intros (p & st' & ? & ? & ? & _)%Promise_all_call_origin. by exists p, st'.
Qed.

Lemma processWebhook_call_cases st index slug p c :
  c ∈ traceOf (processWebhook index slug p st) →
  (∃ item, item ∈ data_items p ∧ c = searchCall st index item)
  ∨ (∃ item, item ∈ data_items p ∧ hitsOf st index item = []
             ∧ c = fetchCall st (clientOf p) (item_codename item) (item_language item))
  ∨ (∃ item e, item ∈ data_items p ∧ e ∈ hitsOf st index item
               ∧ c = fetchCall st (clientOf p) (codename e) (language e))
  ∨ c = CallSave index (recordsToUpsert (mutationSet st index slug p))
  ∨ c = CallDelete index (removedObjectIds (mutationSet st index slug p)).
Proof.
  unfold traceOf.
  destruct (processWebhook_trace st index slug p) as (deletes & -> & Hd).
  rewrite webhookActions_trace.
  intros [Hin|[Hin|Hin]%elem_of_app]%elem_of_app.
  - apply list_elem_of_bind in Hin as (item & Hin & Hitem).
    destruct (decide (hitsOf st index item = [])) as [Hh|Hh].
    + rewrite itemCallback_new_trace in Hin by done.
      apply elem_of_cons in Hin as [->|Hin]; [left; by exists item|].
      apply list_elem_of_singleton in Hin as ->. right. left. by exists item.
    + rewrite itemCallback_existing_trace in Hin by done.
      apply elem_of_cons in Hin as [->|Hin]; [left; by exists item|].
      apply list_elem_of_fmap in Hin as (e & -> & He).
      right. right. left. by exists item, e.
  - destruct (saveCalls_cases index (recordsToReIndex (webhookActions st index slug p).1))
      as [Hs|[Hs _]]; rewrite Hs in Hin; [by apply not_elem_of_nil in Hin|].
    apply list_elem_of_singleton in Hin as ->. by do 3 right; left.
  - destruct Hd as [->|[-> _]]; [by apply not_elem_of_nil in Hin|].
    apply list_elem_of_singleton in Hin as ->. by do 4 right.
Qed.

(** X9.  Every call a run makes to the index (query, save, delete) goes to
    the index named by the request's appId and index parameters with the
    API key of the environment, and every content fetch goes to the project
    of one of the notifications of the body. *)
Theorem calls_go_where_the_request_says envVars event st c :
  c ∈ traceOf (handler envVars event st) →
  match c with
  | CallSearch idx _ _ _ | CallSave idx _ | CallDelete idx _ =>
      idx = requestIndex envVars event
  | CallFetch client _ _ _ =>
      ∃ p, p ∈ notificationsOf event
           ∧ client = {| projectId := message_project_id p |}
  end.
Proof.
  intros (p & st' & Hp & Hc & _)%run_call_origin.
  apply processWebhook_call_cases in Hc
    as [(item & _ & ->)|[(item & _ & _ & ->)|[(item & e & _ & _ & ->)|[->| ->]]]];
    cbn; try done; by exists p.
Qed.

(** X10.  Every index query of a run is for an item listed in a notification
    of the body, and every content fetch is for such an item or for the
    codename and language of a record that an index query of the same run
    returned for such an item. *)
Theorem reads_are_for_notified_items envVars event st :
  (∀ idx c l result,
     CallSearch idx c l result ∈ traceOf (handler envVars event st) →
     ∃ p item, p ∈ notificationsOf event ∧ item ∈ data_items p
               ∧ c = item_codename item ∧ l = item_language item)
  ∧ (∀ client c l result,
       CallFetch client c l result ∈ traceOf (handler envVars event st) →
       ∃ p item,
         p ∈ notificationsOf event ∧ item ∈ data_items p
         ∧ ((c = item_codename item ∧ l = item_language item)
            ∨ ∃ idx hits e,
                CallSearch idx (item_codename item) (item_language item) (Some hits)
                  ∈ traceOf (handler envVars event st)
                ∧ e ∈ hits ∧ c = codename e ∧ l = language e)).
Proof.
  split.
  - intros idx c l result (p & st' & Hp & Hc & _)%run_call_origin.
    apply processWebhook_call_cases in Hc
      as [(item & Hitem & Heq)|[(item & _ & _ & Heq)|[(item & e & _ & _ & Heq)|[Heq|Heq]]]];
      try done.
    injection Heq as -> -> -> ->. by exists p, item.
  - intros client c l result (p & st' & Hp & Hc & Hsub)%run_call_origin.
    pose proof Hc as Hcases. apply processWebhook_call_cases in Hcases
      as [(item & _ & Heq)|[(item & Hitem & _ & Heq)
         |[(item & e & Hitem & He & Heq)|[Heq|Heq]]]];
      try done.
    + injection Heq as -> -> -> ->. exists p, item. split_and!; [done..|by left].
    + injection Heq as -> -> -> ->. exists p, item. split_and!; [done..|right].
      destruct (search_hits_found _ _ _ _ He) as (hits & Hcall & Hhit).
      exists (requestIndex envVars event), hits, e. split_and!; [|done..].
      apply Hsub. rewrite <- Hcall. unfold traceOf.
      destruct (processWebhook_trace st' (requestIndex envVars event)
                  (requestSlug event) p) as (deletes & -> & _).
      apply elem_of_app. left. rewrite webhookActions_trace.
      apply list_elem_of_bind. exists item. split; [|done].
      rewrite itemCallback_existing_trace; [apply list_elem_of_here|].
      intros Hn. rewrite Hn in He. by apply not_elem_of_nil in He.
Qed.

(** *** Writes and the response *)

Lemma processWebhook_save_made st index slug p idx records :
  CallSave idx records ∈ traceOf (processWebhook index slug p st) →
  idx = index ∧ records = recordsToUpsert (mutationSet st index slug p)
  ∧ records ≠ [].
Proof.
  unfold traceOf.
  destruct (processWebhook_trace st index slug p) as (deletes & -> & Hd).
  pose proof (webhookActions_reads st index slug p) as Hreads.
  intros [Hin|[Hin|Hin]%elem_of_app]%elem_of_app.
  - rewrite Forall_forall in Hreads. by apply Hreads in Hin.
  - destruct (saveCalls_cases index (recordsToReIndex (webhookActions st index slug p).1))
      as [Hs|[Hs Hne]]; rewrite Hs in Hin; [by apply not_elem_of_nil in Hin|].
    apply list_elem_of_singleton in Hin. by injection Hin as -> ->.
  - destruct Hd as [->|[-> _]]; [by apply not_elem_of_nil in Hin|].
    by apply list_elem_of_singleton in Hin.
Qed.

Lemma processWebhook_rejected_save st index slug p :
  recordsToUpsert (mutationSet st index slug p) ≠ [] →
  (index_saveObjects st index (recordsToUpsert (mutationSet st index slug p))).2 = None →
  (processWebhook index slug p st).2 = None
  ∧ traceOf (processWebhook index slug p st)
    = (webhookActions st index slug p).2
      ++ [CallSave index (recordsToUpsert (mutationSet st index slug p))].
Proof.
  unfold mutationSet, traceOf. cbn [recordsToUpsert].
  unfold processWebhook, mbind, Async_bind, await_reads, saveObjects.
  destruct (webhookActions st index slug p) as [actions reads]. cbn [fst snd].
  intros Hne Hrejected.
  destruct (recordsToReIndex actions) as [|r recs] eqn:Hrecs; [done|].
  cbn [length]. rewrite bool_decide_eq_false_2 by done.
  destruct (index_saveObjects st index (r :: recs)) as [st1 r1].
  cbn in Hrejected. subst r1. by cbn.
Qed.

(** X11.  A save that the index rejects makes the notification's function
    reject right after the save call, so that the delete of that
    notification is never attempted; and on an index that rejects saves, an
    accepted request that gets as far as a save is answered with the
    uncaught-error response, never with a summary. *)
Theorem rejected_save_fails_the_run envVars event st index slug p :
  (recordsToUpsert (mutationSet st index slug p) ≠ [] →
   (index_saveObjects st index (recordsToUpsert (mutationSet st index slug p))).2 = None →
   (processWebhook index slug p st).2 = None
   ∧ traceOf (processWebhook index slug p st)
     = (webhookActions st index slug p).2
       ++ [CallSave index (recordsToUpsert (mutationSet st index slug p))])
  ∧ (savesReject → acceptedRequest envVars event →
     ∀ idx records,
       CallSave idx records ∈ traceOf (handler envVars event st) →
       (handler envVars event st).2 = uncaughtResponse).
Proof.
  split; [apply processWebhook_rejected_save|].
  intros Hreject Haccepted idx records. unfold traceOf.
  rewrite handler_accepted by done. unfold runNotifications.
  destruct (Promise_all _ st) as [[st1 t1] [results|]] eqn:Hrun; [|done].
  cbn [fst snd]. intros Hin. exfalso.
  assert (t1 = (Promise_all
                  (processWebhook (requestIndex envVars event) (requestSlug event)
                   <$> notificationsOf event) st).1.2) as Ht1 by by rewrite Hrun.
  rewrite Ht1 in Hin.
  apply Promise_all_call_origin in Hin as (p' & st' & _ & Hcall & _ & Hsome).
  rewrite Hrun in Hsome. destruct Hsome as [r' Hr']; [by eexists|].
  apply processWebhook_save_made in Hcall as (-> & -> & Hne).
  destruct (processWebhook_rejected_save st' (requestIndex envVars event)
              (requestSlug event) p' Hne (Hreject _ _ _)) as [Hnone _].
  congruence.
Qed.




(** X13.  For one item the handler makes one index query and then one
    content fetch for each record found, or a single fetch when none is
    found; it derives one action per fetch. *)
Theorem item_costs_one_query_and_a_fetch_per_record st index client slug item :
  ∃ fetches,
    (itemCallback st index client slug item).2 = searchCall st index item :: fetches
    ∧ Forall (λ c, is_fetch c = true) fetches
    ∧ length fetches = length (hitsOf st index item) `max` 1
    ∧ length (itemCallback st index client slug item).1 = length fetches.
Proof.
  destruct (decide (hitsOf st index item = [])) as [Hh|Hh].
  - rewrite itemCallback_new_trace, itemCallback_new_value by done.
    eexists. split_and!; [done|by repeat constructor|by rewrite Hh|done].
  - rewrite itemCallback_existing_trace, itemCallback_existing_value by done.
    eexists. split_and!; [done| | |by rewrite !length_fmap].
    + apply Forall_fmap, Forall_true. done.
    + rewrite length_fmap. destruct (hitsOf st index item); [done|cbn; lia].
Qed.

End Further.

(** * The further properties on the reference world *)

Lemma reference_request_accepted (webhookData : WebhookData) :
  @acceptedRequest (Reference.platform [("payload", webhookData)])
    Reference.envVars Reference.request.
Proof. repeat split; by eexists. Qed.

Lemma nothing_changed_nothing_done_witness :
  data_items (Reference.notification []) = []
  ∧ @acceptedRequest (Reference.platform [("payload", NewFormat [])])
      Reference.envVars Reference.request
  ∧ Reference.run (NewFormat []) Reference.fresh
    = (Reference.fresh, [],
       {| statusCode := 200; responseBody := BodyJson [] [];
          contentType := Some "application/json" |})
  ∧ processWebhook Reference.index "url" (Reference.notification []) Reference.fresh
    = (Reference.fresh, [],
       Some {| deletedObjectIds := None; reIndexedObjectIds := None |}).
Proof.
  pose proof (reference_request_accepted (NewFormat [])) as Haccepted.
  destruct (@nothing_changed_nothing_done _ Reference.collaborators
              Reference.projection (Reference.platform [("payload", NewFormat [])])
              Reference.envVars Reference.request Reference.fresh Reference.index
              "url" (Reference.notification [])) as [Hone Hall].
  split_and!; [done|done| |by apply Hone].
  apply Hall; [done|]. by intros p' ?%not_elem_of_nil.
Defined.

Lemma action_is_one_decision_witness :
  removeAction Reference.post2_record
    ∈ (webhookActions Reference.post2_unpublished Reference.index "url"
         Reference.two_changed).1
  ∧ length (objectIdsToRemove (removeAction Reference.post2_record))
    + length (recordsToReindex (removeAction Reference.post2_record)) ≤ 1.
Proof.
  assert (removeAction Reference.post2_record
            ∈ (webhookActions Reference.post2_unpublished Reference.index "url"
                 Reference.two_changed).1) as Hin by concrete.
  split; [exact Hin|].
  exact (action_is_one_decision _ _ _ _ _ Hin).
Defined.

Lemma retyped_entity_is_removed_witness :
  Reference.changed "page-1" "en" ∈ data_items MoreReference.page1_changed
  ∧ MoreReference.page1_record
    ∈ hitsOf MoreReference.page1_indexed Reference.index (Reference.changed "page-1" "en")
  ∧ JsMap.get "page-1"
      (graphOf MoreReference.page1_indexed Reference.client "page-1" "en")
    = Some Reference.page1
  ∧ ¬ allowedType Reference.page1
  ∧ "page-1_en"
    ∈ removedObjectIds
        (Reference.mutations MoreReference.page1_indexed MoreReference.page1_changed).
Proof.
  assert (Reference.changed "page-1" "en" ∈ data_items MoreReference.page1_changed)
    as Hitem by apply list_elem_of_here.
  assert (MoreReference.page1_record
          ∈ hitsOf MoreReference.page1_indexed Reference.index
              (Reference.changed "page-1" "en")) as Hhit by apply list_elem_of_here.
  assert (JsMap.get "page-1"
            (graphOf MoreReference.page1_indexed Reference.client "page-1" "en")
          = Some Reference.page1) as Hget by reflexivity.
  assert (¬ allowedType Reference.page1) as Hty by (by intros [?|?]).
  split_and!; [done..|].
  apply (retyped_entity_is_removed MoreReference.page1_indexed Reference.index "url"
           MoreReference.page1_changed (Reference.changed "page-1" "en")
           MoreReference.page1_record Reference.page1 Hitem Hhit Hget Hty).
Defined.

Lemma merge_keeps_distinct_entries_witness :
  let actions :=
    [ {| objectIdsToRemove := []; recordsToReindex := [Reference.post1_record] |};
      removeAction Reference.post2_record;
      {| objectIdsToRemove := []; recordsToReindex := [Reference.post3_record] |} ] in
  NoDup (codename <$> producedRecords actions)
  ∧ NoDup (actions ≫= objectIdsToRemove)
  ∧ recordsToReIndex actions = [Reference.post1_record; Reference.post3_record]
  ∧ mergedObjectIdsToRemove actions = ["post-2_en"].
Proof.
  intros actions.
  assert (NoDup (codename <$> producedRecords actions)) as Hrecords.
  { apply (bool_decide_unpack _). by vm_compute. }
  assert (NoDup (actions ≫= objectIdsToRemove)) as Hids.
  { apply (bool_decide_unpack _). by vm_compute. }
  destruct (merge_keeps_distinct_entries actions) as (Hr & Hi & _).
  split_and!; [done|done|by rewrite Hr|by rewrite Hi].
Defined.

Lemma kc_signature_only_needs_to_be_present_witness :
  truthy (headers Reference.request !! "x-kc-signature") = true
  ∧ "anything" ≠ ""
  ∧ truthy (headers MoreReference.request_without_kc_signature !! "x-kc-signature") = false
  ∧ @handler _ Reference.collaborators Reference.projection
      (Reference.platform [("payload", LegacyFormat Reference.post1_changed)])
      Reference.envVars
      (with_header Reference.request "x-kc-signature" "anything") Reference.unindexed
    = Reference.run (LegacyFormat Reference.post1_changed) Reference.unindexed
  ∧ @handler _ Reference.collaborators Reference.projection
      (Reference.platform [("payload", LegacyFormat Reference.post1_changed)])
      Reference.envVars MoreReference.request_without_kc_signature Reference.unindexed
    = (Reference.unindexed, [],
       {| statusCode := 401; responseBody := BodyText "Unauthorized";
          contentType := None |}).
Proof.
  assert (truthy (headers Reference.request !! "x-kc-signature") = true) as Hkc
    by reflexivity.
  assert ("anything" ≠ "") as Hvalue by done.
  assert (truthy (headers MoreReference.request_without_kc_signature
                  !! "x-kc-signature") = false) as Hmissing by reflexivity.
  split_and!; [done..| |].
  - apply (@kc_signature_only_needs_to_be_present _ Reference.collaborators
             Reference.projection
             (Reference.platform [("payload", LegacyFormat Reference.post1_changed)])
             Reference.envVars Reference.request Reference.unindexed "anything");
      done.
  - apply (@kc_signature_only_needs_to_be_present _ Reference.collaborators
             Reference.projection
             (Reference.platform [("payload", LegacyFormat Reference.post1_changed)])
             Reference.envVars MoreReference.request_without_kc_signature
             Reference.unindexed "anything"); done.
Defined.

Lemma calls_go_where_the_request_says_witness :
  CallFetch Reference.client "post-2" "en" None
    ∈ traceOf (Reference.run (LegacyFormat Reference.post2_changed) Reference.post2_deleted)
  ∧ ∃ p, p ∈ [Reference.post2_changed]
         ∧ Reference.client = {| projectId := message_project_id p |}.
Proof.
  assert (CallFetch Reference.client "post-2" "en" None
            ∈ traceOf (Reference.run (LegacyFormat Reference.post2_changed)
                         Reference.post2_deleted)) as Hin by concrete.
  split; [exact Hin|].
  exact (@calls_go_where_the_request_says _ Reference.collaborators
           Reference.projection _ Reference.envVars Reference.request _ _ Hin).
Defined.

Lemma reads_are_for_notified_items_witness :
  let tr := traceOf (Reference.run (LegacyFormat Reference.post2_changed)
                       Reference.post2_deleted) in
  CallSearch Reference.index "post-2" "en" (Some [Reference.stale_post2]) ∈ tr
  ∧ CallFetch Reference.client "post-2" "en" None ∈ tr
  ∧ (∃ p item, p ∈ [Reference.post2_changed] ∧ item ∈ data_items p
               ∧ "post-2" = item_codename item ∧ "en" = item_language item)
  ∧ ∃ p item,
      p ∈ [Reference.post2_changed] ∧ item ∈ data_items p
      ∧ (("post-2" = item_codename item ∧ "en" = item_language item)
         ∨ ∃ idx hits e,
             CallSearch idx (item_codename item) (item_language item) (Some hits) ∈ tr
             ∧ e ∈ hits ∧ "post-2" = codename e ∧ "en" = language e).
Proof.
  intros tr.
  assert (CallSearch Reference.index "post-2" "en" (Some [Reference.stale_post2]) ∈ tr)
    as Hsearch by concrete.
  assert (CallFetch Reference.client "post-2" "en" None ∈ tr) as Hfetch by concrete.
  destruct (@reads_are_for_notified_items _ Reference.collaborators
              Reference.projection
              (Reference.platform [("payload", LegacyFormat Reference.post2_changed)])
              Reference.envVars Reference.request Reference.post2_deleted)
    as [Hsearches Hfetches].
  split_and!; [done|done|exact (Hsearches _ _ _ _ Hsearch)|exact (Hfetches _ _ _ _ Hfetch)].
Defined.

Lemma rejected_save_fails_the_run_witness :
  @savesReject _ ReadOnly.collaborators
  ∧ @acceptedRequest
      (Reference.platform [("payload", LegacyFormat Reference.post1_changed)])
      Reference.envVars Reference.request
  ∧ CallSave Reference.index [Reference.post1_record]
      ∈ traceOf (ReadOnly.run (LegacyFormat Reference.post1_changed) Reference.unindexed)
  ∧ (ReadOnly.run (LegacyFormat Reference.post1_changed) Reference.unindexed).2
    = uncaughtResponse
  ∧ countCalls is_delete
      (traceOf (@processWebhook _ ReadOnly.collaborators Reference.projection
                  Reference.index "url" Reference.two_changed
                  Reference.post2_unpublished)) = 0.
Proof.
  assert (@savesReject _ ReadOnly.collaborators) as Hreject by done.
  pose proof (reference_request_accepted (LegacyFormat Reference.post1_changed))
    as Haccepted.
  assert (CallSave Reference.index [Reference.post1_record]
            ∈ traceOf (ReadOnly.run (LegacyFormat Reference.post1_changed)
                         Reference.unindexed)) as Hsaved by concrete.
  split_and!; [done..| |].
  - destruct (@rejected_save_fails_the_run _ ReadOnly.collaborators
                Reference.projection
                (Reference.platform [("payload", LegacyFormat Reference.post1_changed)])
                Reference.envVars Reference.request Reference.unindexed
                Reference.index "url" Reference.post1_changed) as [_ Hrun].
    exact (Hrun Hreject Haccepted _ _ Hsaved).
  - destruct (@rejected_save_fails_the_run _ ReadOnly.collaborators
                Reference.projection (Reference.platform []) Reference.envVars
                Reference.request Reference.post2_unpublished
                Reference.index "url" Reference.two_changed) as [Hone _].
    destruct Hone as [_ ->]; [done|done|]. reflexivity.
Defined.


(** A linked item with the codename of the requested item takes its place. *)
Example linked_item_shadows_the_item :
  JsMap.get "post-1" (itemsByCodename (Some MoreReference.post1_shadowed))
  = Some MoreReference.shadow.
Proof. reflexivity. Qed.
